(** * EventNotifier: the event lifecycle tracker and broadcast dispatcher

    A shallow embedding of [EventNotifier.refresh]
    (src/lib/notifications/EventNotifier.ts) and the properties of its
    lifecycle state machine: first notification, grace period, staleness,
    refresh window, and per-setting dispatch.

    The tick body is written in a small state/writer/exception monad:
    the state holds the two stores the code mutates (the notification
    table and the guild repository), the writer collects the calls and
    log lines in the order the code issues them, and exceptions model a
    rejected database promise, which [try]/[catch] turns into a log line. *)

From Stdlib Require Import ZArith List String Bool Lia.
Import ListNotations.
Local Open Scope Z_scope.
Local Open Scope string_scope.

(** ** Collaborators that are not part of the notifier's file *)

Module duration.
(** Modelled from the spec: the helper [duration] of utils/Commons is
    imported but not part of the sources at hand.  The spec gives the
    three bounds as 30 seconds, 5 minutes and 1 hour, and the code adds
    them to [Date.now()]-style values, so they are milliseconds. *)
Definition seconds (n : Z) : Z := n * 1000.
Definition minutes (n : Z) : Z := seconds (n * 60).
Definition hours (n : Z) : Z := minutes (n * 60).
End duration.

Module Events.
(** Modelled from the spec: the enum [Events] of ../../types is imported
    but not part of the sources at hand; only the member [Helltide] is
    used.  Its string value is irrelevant to every general statement. *)
Definition Helltide : string := "helltide".
End Events.

(** ** Data *)

Module Event.
(** An entry of the fetched event map.  [refresh] is the field of
    [HelltideEvent]; the code reads it for Helltide keys only.
    Timestamps are epoch seconds, far inside the range on which
    [new Date(x).getTime()] is [x], so that conversion is the identity. *)
Record t := mk { timestamp : Z; refresh : Z; payload : string }.
End Event.

Module Notification.
(** A row of the notification table. *)
Record t := mk {
  id : Z;
  type : string;
  data : Event.t;
  timestamp : Z;
  refreshTimestamp : Z;
  refreshed : bool
}.

Definition setRefreshed (n : t) : t :=
  mk (id n) (type n) (data n) (timestamp n) (refreshTimestamp n) true.
End Notification.

Module Setting.
(** One entry of [guild.events]: a delivery setting. *)
Record t := mk {
  type : string;
  channelId : option string;
  roleId : option string;
  messageId : option string
}.

Definition setMessageId (s : t) (m : option string) : t :=
  mk (type s) (channelId s) (roleId s) m.
End Setting.

Module Guild.
Record t := mk {
  id : Z;
  guildId : string;
  locale : string;
  events : list Setting.t
}.

Definition setEvents (g : t) (l : list Setting.t) : t :=
  mk (id g) (guildId g) (locale g) l.
End Guild.

Module Message.
(** The [MessageCreateOptions] object built per guild.  An [EventEmbed]
    is determined by the key and the event it is constructed from. *)
Record t := mk {
  content : string;
  embeds : list (string * Event.t);
  allowedMentions : option (list string)
}.
End Message.

(** [status.event_service]: absent or [false] are both falsy. *)
Record Status := { event_service : option bool }.

(** The value [broadcast] resolves to, cast to [(Message<true> | null)[]]
    by the caller: [None] is [null], an element [None] is a [null] entry,
    and a sent message is represented by its [id]. *)
Definition Response := option (list (option string)).

(** JavaScript truthiness of a nullable string. *)
Definition truthy (o : option string) : bool :=
  match o with
  | Some s => negb (s =? EmptyString)
  | None => false
  end.

(** ** Observable effects *)

(** The lines written through [client.logger], by source line. *)
Inductive Log :=
| Refreshing                                   (* 48 *)
| ServiceUnavailable                           (* 53 *)
| NoEvents                                     (* 58 *)
| TooRecent (key : string)                     (* 79 *)
| CreateFailed (key : string) (msg : string)   (* 95, error *)
| TooOld (key : string)                        (* 100 *)
| NotReady (key : string)                      (* 114 *)
| RefreshFailed (key : string) (msg : string)  (* 128, error *)
| FoundGuilds (n : nat) (key : string)         (* 134 *)
| CheckingGuild (id : Z)                       (* 137 *)
| Enabled (key : string) (id : Z)              (* 151 *)
| NoChannel (key : string)                     (* 165 *)
| Broadcasted (key : string) (n : nat).        (* 186 *)

(** Calls that leave the process, and log lines. *)
Inductive Effect :=
| Logged (l : Log)
| Create (key : string) (data : Event.t) (timestamp refreshTimestamp : Z)
| Update (id : Z)
| Broadcast (channelId : string) (message : Message.t)
            (messageId : option string)
| UpdateEventMessageId (guildId key channelId : string)
                       (id : option string).

(** ** The world the tick runs in *)

Record World := mkWorld {
  notification : list Notification.t;   (* client.database.notification *)
  guild : list Guild.t;                 (* client.repository.guild *)
  calls : nat                           (* broadcasts issued so far *)
}.

(** What the outside decides while one event is processed: the clock
    reading, whether the database rejects the write (with the error's
    message), and what the broadcaster answers to its n-th call. *)
Record Oracle := mkOracle {
  now : Z;
  createFails : option string;
  updateFails : option string;
  respond : nat -> string -> Message.t -> option string -> Response
}.

(** ** The monad *)

Inductive Result (A : Type) :=
| Ok (a : A)
| Throw (msg : string).
Arguments Ok {A} a.
Arguments Throw {A} msg.

Definition M (A : Type) : Type := World -> Result A * World * list Effect.

Definition ret {A} (a : A) : M A := fun w => (Ok a, w, []).

Definition bind {A B} (m : M A) (f : A -> M B) : M B :=
  fun w =>
    match m w with
    | (Ok a, w1, t1) =>
        match f a w1 with
        | (r, w2, t2) => (r, w2, (t1 ++ t2)%list)
        end
    | (Throw e, w1, t1) => (Throw e, w1, t1)
    end.

(** [try { m } catch (error) { h error }] *)
Definition try_catch {A} (m : M A) (h : string -> M A) : M A :=
  fun w =>
    match m w with
    | (Ok a, w1, t1) => (Ok a, w1, t1)
    | (Throw e, w1, t1) =>
        match h e w1 with
        | (r, w2, t2) => (r, w2, (t1 ++ t2)%list)
        end
    end.

Definition emit (e : Effect) : M unit := fun w => (Ok tt, w, [e]).

Definition log (l : Log) : M unit := emit (Logged l).

Declare Scope notifier_scope.
Delimit Scope notifier_scope with notifier.
Notation "x <- m ;; k" := (bind m (fun x => k))
  (at level 61, m at next level, right associativity) : notifier_scope.
Notation "m ;; k" := (bind m (fun _ => k))
  (at level 61, right associativity) : notifier_scope.
Local Open Scope notifier_scope.

(** [for (const x of l) body(x)] *)
Fixpoint forEach {A} (l : list A) (body : A -> M unit) : M unit :=
  match l with
  | [] => ret tt
  | x :: l' => body x ;; forEach l' body
  end.

(** A loop whose body updates a variable declared outside of it. *)
Fixpoint forEachWith {A S} (l : list A) (body : S -> A -> M S) (s : S) : M S :=
  match l with
  | [] => ret s
  | x :: l' => s' <- body s x ;; forEachWith l' body s'
  end.

Definition state_of {A} (x : Result A * World * list Effect) : World :=
  snd (fst x).
Definition trace_of {A} (x : Result A * World * list Effect) : list Effect :=
  snd x.
Definition result_of {A} (x : Result A * World * list Effect) : Result A :=
  fst (fst x).

(** ** The stores *)

Definition sameOccurrence (key : string) (timestamp : Z)
    (n : Notification.t) : bool :=
  (Notification.type n =? key) && (Notification.timestamp n =? timestamp)%Z.

(** [notification.findFirst({ where: { type, timestamp } })] *)
Definition findFirst (key : string) (timestamp : Z) : M (option Notification.t) :=
  fun w => (Ok (find (sameOccurrence key timestamp) (notification w)), w, []).

Definition nextId (l : list Notification.t) : Z :=
  1 + fold_right (fun n acc => Z.max (Notification.id n) acc) 0 l.

(** Modelled from the spec: the table's schema is not part of the sources
    at hand.  A created row gets a fresh id and [refreshed] defaults to
    false.  The promise rejects when the database refuses the write. *)
Definition create (fails : option string) (key : string) (data : Event.t)
    (timestamp refreshTimestamp : Z) : M unit :=
  fun w =>
    match fails with
    | Some msg => (Throw msg, w, [Create key data timestamp refreshTimestamp])
    | None =>
        let row := Notification.mk (nextId (notification w)) key data
                     timestamp refreshTimestamp false in
        (Ok tt, mkWorld (notification w ++ [row])%list (guild w) (calls w),
         [Create key data timestamp refreshTimestamp])
    end.

(** [notification.update({ where: { id }, data: { refreshed: true } })];
    [id] is the table's key, so in a table whose ids are distinct exactly
    one row is touched. *)
Definition update (fails : option string) (id : Z) : M unit :=
  fun w =>
    match fails with
    | Some msg => (Throw msg, w, [Update id])
    | None =>
        (Ok tt,
         mkWorld (map (fun n => if (Notification.id n =? id)%Z
                                then Notification.setRefreshed n else n)
                      (notification w))
                 (guild w) (calls w),
         [Update id])
    end.

Definition forType (key : string) (s : Setting.t) : bool :=
  Setting.type s =? key.

(** Modelled from the spec: [guild.getAllByEvent] is not part of the
    sources at hand.  "Only subscribers that have at least one enabled
    DeliverySetting for type are returned." *)
Definition subscribers (key : string) (w : World) : list Guild.t :=
  filter (fun g => existsb (forType key) (Guild.events g)) (guild w).

Definition getAllByEvent (key : string) : M (list Guild.t) :=
  fun w => (Ok (subscribers key w), w, []).

(** What the write-back does to one setting of the subscriber: the ones
    for this key and channel take the new id. *)
Definition writeBack (key channelId : string) (id : string)
    (s : Setting.t) : Setting.t :=
  if forType key s &&
     match Setting.channelId s with
     | Some c => c =? channelId
     | None => false
     end
  then Setting.setMessageId s (Some id)
  else s.

(** Modelled from the spec: [guild.updateEventMessageId] is not part of
    the sources at hand.  It "writes that identifier back into the
    subscriber's DeliverySetting for this type (idempotent overwrite)",
    addressed by subscriber, type and channel.  The spec is silent on an
    [undefined] identifier (line 180 passes one when the first entry of
    the answer is [null]); it is taken to write nothing. *)
Definition updateEventMessageId (guildId key channelId : string)
    (id : option string) : M unit :=
  fun w =>
    (Ok tt,
     match id with
     | None => w
     | Some i =>
         mkWorld (notification w)
                 (map (fun g => if Guild.guildId g =? guildId
                                then Guild.setEvents g
                                       (map (writeBack key channelId i)
                                            (Guild.events g))
                                else g)
                      (guild w))
                 (calls w)
     end,
     [UpdateEventMessageId guildId key channelId id]).

(** [this.broadcaster.broadcast(channelId, message, messageId)]: the
    broadcaster is an outside party; its answer comes from the oracle. *)
Definition broadcast (O : Oracle) (channelId : string) (message : Message.t)
    (messageId : option string) : M Response :=
  fun w =>
    (Ok (respond O (calls w) channelId message messageId),
     mkWorld (notification w) (guild w) (S (calls w)),
     [Broadcast channelId message messageId]).

(** ** The tick *)

Section Notifier.

(** [getTitle] of ./NotifierUtils, the renderer: a pure function of the
    key, the event and the guild's locale. *)
Variable getTitle : string -> Event.t -> string -> string.

(** Lines 153-158, [if (setting.roleId) { ... }]: the mention is appended
    to the message object shared by all settings of the guild, and
    [allowedMentions] is assigned anew. *)
Definition addMention (message : Message.t) (setting : Setting.t) : Message.t :=
  match Setting.roleId setting with
  | Some role =>
      if truthy (Some role)
      then Message.mk (Message.content message ++ " - <@&" ++ role ++ ">")
                      (Message.embeds message)
                      (Some [role])
      else message
  | None => message
  end.

(** Lines 150-183: the body of [for (let setting of settings)].  It
    returns the message object as the next iteration finds it. *)
Definition refresh_setting (O : Oracle) (key : string) (g : Guild.t)
    (message : Message.t) (setting : Setting.t) : M Message.t :=
  log (Enabled key (Guild.id g)) ;;
  let message := addMention message setting in
  match Setting.channelId setting with
  | Some channelId =>
      if truthy (Some channelId) then
        response <- broadcast O channelId message (Setting.messageId setting) ;;
        match response with
        | Some (first :: _) =>
            updateEventMessageId (Guild.guildId g) key channelId first ;;
            ret message
        | Some [] => ret message
        | None => ret message
        end
      else
        log (NoChannel key) ;; ret message
  | None =>
      log (NoChannel key) ;; ret message
  end.

(** Lines 136-184: the body of [for (const guild of guilds)]. *)
Definition refresh_guild (O : Oracle) (key : string) (event : Event.t)
    (g : Guild.t) : M unit :=
  log (CheckingGuild (Guild.id g)) ;;
  let message :=
    Message.mk (getTitle key event (Guild.locale g)) [(key, event)] None in
  let settings := filter (forType key) (Guild.events g) in
  if (List.length settings =? 0)%nat then ret tt
  else
    forEachWith settings (refresh_setting O key g) message ;;
    ret tt.

(** Lines 136-186: the loop over the guilds and the closing log line. *)
Definition refresh_guilds (O : Oracle) (key : string) (event : Event.t)
    (guilds : list Guild.t) : M unit :=
  forEach guilds (refresh_guild O key event) ;;
  log (Broadcasted key (List.length guilds)).

(** Lines 132-186. *)
Definition refresh_broadcast (O : Oracle) (key : string) (event : Event.t)
    : M unit :=
  guilds <- getAllByEvent key ;;
  log (FoundGuilds (List.length guilds) key) ;;
  refresh_guilds O key event guilds.

(** Lines 72-103, entered when no record exists.  The result tells
    whether control falls through ([true]) or hits [continue]. *)
Definition refresh_create (O : Oracle) (key : string) (event : Event.t)
    : M bool :=
  let now := now O in
  let eventDate := Event.timestamp event * 1000 in
  let delayDate := Event.timestamp event * 1000 + duration.seconds 30 in
  if (key =? Events.Helltide) && (now <? delayDate)%Z then
    log (TooRecent key) ;; ret false
  else
    let refreshTimestamp :=
      if key =? Events.Helltide then Event.refresh event else 0 in
    try_catch
      (create (createFails O) key event (Event.timestamp event)
              refreshTimestamp)
      (fun msg => log (CreateFailed key msg)) ;;
    if (now >? eventDate + duration.minutes 5)%Z then
      log (TooOld key) ;; ret false
    else ret true.

(** Lines 106-130, entered when a record exists. *)
Definition refresh_refresh (O : Oracle) (key : string)
    (exist : Notification.t) : M bool :=
  if negb (Notification.refreshTimestamp exist =? 0)%Z
     && (Notification.refreshTimestamp exist >? 0)%Z
     && negb (Notification.refreshed exist)
  then
    let now := now O in
    let startDate := Notification.timestamp exist * 1000 in
    let refreshDate := Notification.refreshTimestamp exist * 1000 in
    let endDate := startDate + duration.hours 1 in
    if negb ((now >=? startDate)%Z && (now <=? endDate)%Z)
       || (now <? refreshDate)%Z
    then
      log (NotReady key) ;; ret false
    else
      try_catch
        (update (updateFails O) (Notification.id exist))
        (fun msg => log (RefreshFailed key msg)) ;;
      ret true
  else ret true.

(** Lines 63-187: the body of [for (let [key, event] of ...)]. *)
Definition refresh_event (O : Oracle) (key : string) (event : Event.t)
    : M unit :=
  exist <- findFirst key (Event.timestamp event) ;;
  if match exist with
     | None => true
     | Some e => (Notification.refreshTimestamp e >? 0)%Z
                 && negb (Notification.refreshed e)
     end
  then
    go <- match exist with
          | None => refresh_create O key event
          | Some _ => ret true
          end ;;
    if go then
      go <- match exist with
            | Some e => refresh_refresh O key e
            | None => ret true
            end ;;
      if go then refresh_broadcast O key event else ret tt
    else ret tt
  else ret tt.

(** The body of the loop of line 62, on an entry [[key, event]]; [env]
    gives the oracle for each key. *)
Definition entry_body (env : string -> Oracle) (entry : string * Event.t)
    : M unit :=
  refresh_event (env (fst entry)) (fst entry) (snd entry).

(** Lines 47-189.  [status] and [events] are what [getStatus()] and
    [getEvents()] resolved to. *)
Definition refresh (status : option Status)
    (events : option (list (string * Event.t)))
    (env : string -> Oracle) : M unit :=
  log Refreshing ;;
  match status with
  | Some {| event_service := Some true |} =>
      match events with
      | Some entries =>
          forEach entries (entry_body env)
      | None => log NoEvents
      end
  | _ => log ServiceUnavailable
  end.

(** The cron job: one [refresh] per tick, never overlapping. *)
Record Tick := mkTick {
  status : option Status;
  events : option (list (string * Event.t));
  env : string -> Oracle
}.

Definition run (ticks : list Tick) : M unit :=
  forEach ticks (fun t => refresh (status t) (events t) (env t)).

End Notifier.

(** ** What a trace shows *)

Definition isLogged (e : Effect) : bool :=
  match e with Logged _ => true | _ => false end.

Definition isCreate (e : Effect) : bool :=
  match e with Create _ _ _ _ => true | _ => false end.

Definition isUpdate (e : Effect) : bool :=
  match e with Update _ => true | _ => false end.

Definition isBroadcast (e : Effect) : bool :=
  match e with Broadcast _ _ _ => true | _ => false end.

Definition isWriteBack (e : Effect) : bool :=
  match e with UpdateEventMessageId _ _ _ _ => true | _ => false end.

(** Line 134 is logged exactly when control reaches the dispatch to the
    subscribers of the key. *)
Definition startsBroadcast (e : Effect) : bool :=
  match e with Logged (FoundGuilds _ _) => true | _ => false end.

(** The create for one occurrence. *)
Definition isCreateOf (key : string) (timestamp : Z) (e : Effect) : bool :=
  match e with
  | Create k _ t _ => (k =? key) && (t =? timestamp)%Z
  | _ => false
  end.

(** The notify-trigger: a record creation followed by the dispatch. *)
Definition notify_trigger (t : list Effect) : bool :=
  existsb isCreate t && existsb startsBroadcast t.

(** The refresh-trigger: the update of [refreshed] followed by the
    dispatch. *)
Definition refresh_trigger (t : list Effect) : bool :=
  existsb isUpdate t && existsb startsBroadcast t.

Definition creations (key : string) (timestamp : Z) (t : list Effect) : nat :=
  List.length (filter (isCreateOf key timestamp) t).

(** The record of an occurrence, as [findFirst] sees it. *)
Definition record (key : string) (timestamp : Z) (w : World)
    : option Notification.t :=
  find (sameOccurrence key timestamp) (notification w).

(** The message ids the repository holds for the settings addressed by
    a write-back. *)
Definition addressed (key channelId : string) (s : Setting.t) : bool :=
  forType key s &&
  match Setting.channelId s with
  | Some c => c =? channelId
  | None => false
  end.

Definition storedMessageIds (guildId key channelId : string) (w : World)
    : list (option string) :=
  flat_map (fun g => if Guild.guildId g =? guildId
                     then map Setting.messageId
                              (filter (addressed key channelId) (Guild.events g))
                     else [])
           (guild w).

(** A row only ever changes by [refreshed] going from false to true. *)
Definition row_le (n n' : Notification.t) : Prop :=
  Notification.id n' = Notification.id n /\
  Notification.type n' = Notification.type n /\
  Notification.data n' = Notification.data n /\
  Notification.timestamp n' = Notification.timestamp n /\
  Notification.refreshTimestamp n' = Notification.refreshTimestamp n /\
  (Notification.refreshed n = true -> Notification.refreshed n' = true).

(** The table only ever grows at its end. *)
Definition grows (l l' : list Notification.t) : Prop :=
  exists l1 extra, l' = (l1 ++ extra)%list /\ Forall2 row_le l l1.

(** An action that never throws and under which the table only grows. *)
Definition steady {A} (m : M A) : Prop :=
  forall w, exists a w' t,
    m w = (Ok a, w', t) /\ grows (notification w) (notification w').

Definition deliveryEffect (e : Effect) : bool :=
  negb (isCreate e) && negb (isUpdate e) && negb (startsBroadcast e).

Definition withTable (l : list Notification.t) (w : World) : World :=
  mkWorld l (guild w) (calls w).

(** An action of the dispatch: it never throws, leaves the table alone,
    issues no table write, and runs the same whatever the table holds. *)
Definition delivery {A} (m : M A) : Prop :=
  forall w, exists a w' t,
    m w = (Ok a, w', t) /\
    notification w' = notification w /\
    forallb deliveryEffect t = true /\
    forall l, m (withTable l w) = (Ok a, withTable l w', t).

(** ** The outcome of the two table writes, as the tick observes them *)

(** Line 83. *)
Definition refreshTimestampFor (key : string) (event : Event.t) : Z :=
  if key =? Events.Helltide then Event.refresh event else 0.

(** The row a successful create of lines 86-93 adds. *)
Definition createdRow (key : string) (event : Event.t) (w : World)
    : Notification.t :=
  Notification.mk (nextId (notification w)) key event
    (Event.timestamp event) (refreshTimestampFor key event) false.

(** The world after lines 85-96. *)
Definition afterCreate (O : Oracle) (key : string) (event : Event.t)
    (w : World) : World :=
  match createFails O with
  | Some _ => w
  | None => withTable (notification w ++ [createdRow key event w])%list w
  end.

(** What lines 85-96 emit: the call, and the error line when it rejects. *)
Definition createTrace (O : Oracle) (key : string) (event : Event.t)
    : list Effect :=
  Create key event (Event.timestamp event) (refreshTimestampFor key event)
  :: match createFails O with
     | Some msg => [Logged (CreateFailed key msg)]
     | None => []
     end.

(** The world after lines 118-129. *)
Definition afterUpdate (O : Oracle) (exist : Notification.t) (w : World)
    : World :=
  match updateFails O with
  | Some _ => w
  | None =>
      withTable (map (fun n => if (Notification.id n =? Notification.id exist)%Z
                               then Notification.setRefreshed n else n)
                     (notification w)) w
  end.

(** What lines 118-129 emit. *)
Definition updateTrace (O : Oracle) (key : string) (exist : Notification.t)
    : list Effect :=
  Update (Notification.id exist)
  :: match updateFails O with
     | Some msg => [Logged (RefreshFailed key msg)]
     | None => []
     end.

(** The grace rule of line 78 and the staleness rule of line 99. *)
Definition tooRecent (O : Oracle) (key : string) (event : Event.t) : bool :=
  (key =? Events.Helltide)
  && (now O <? Event.timestamp event * 1000 + duration.seconds 30)%Z.

Definition tooOld (O : Oracle) (event : Event.t) : bool :=
  (now O >? Event.timestamp event * 1000 + duration.minutes 5)%Z.

(** The window test of line 113, negated: the refresh is due. *)
Definition refreshDue (O : Oracle) (exist : Notification.t) : bool :=
  negb (negb ((now O >=? Notification.timestamp exist * 1000)%Z
              && (now O <=? Notification.timestamp exist * 1000
                            + duration.hours 1)%Z)
        || (now O <? Notification.refreshTimestamp exist * 1000)%Z).

(** The same oracle with another answer of the database to the create. *)
Definition withCreate (c : option string) (O : Oracle) : Oracle :=
  mkOracle (now O) c (updateFails O) (respond O).

(** ** A small deployment, for concrete runs *)

Module Sample.

(** A renderer that shows the key. *)
Definition title (key : string) (_ : Event.t) (_ : string) : string := key.

(** A Helltide starting at second 1000 whose refresh is due at 1600. *)
Definition helltide : Event.t := Event.mk 1000 1600 "zone".

Definition boss : Event.t := Event.mk 1000 0 "boss".

(** One guild with two Helltide settings, each with a role. *)
Definition guild1 : Guild.t :=
  Guild.mk 1 "g1" "en"
    [Setting.mk "helltide" (Some "c1") (Some "r1") None;
     Setting.mk "helltide" (Some "c2") (Some "r2") None].

Definition empty : World := mkWorld [] [guild1] 0.

(** A broadcaster that delivers and answers with the message [m1]. *)
Definition delivers (_ : nat) (_ : string) (_ : Message.t)
    (_ : option string) : Response := Some [Some "m1"].

(** A broadcaster whose every send fails. *)
Definition fails (_ : nat) (_ : string) (_ : Message.t)
    (_ : option string) : Response := None.

Definition at_ (now : Z) : Oracle := mkOracle now None None delivers.

(** The same clock, with a database that rejects the update, or the
    create. *)
Definition rejectingUpdate (now : Z) : Oracle :=
  mkOracle now None (Some "db down") delivers.

Definition rejectingCreate (now : Z) : Oracle :=
  mkOracle now (Some "db down") None delivers.

Definition available : option Status := Some {| event_service := Some true |}.

(** The table after the Helltide was created at second 1040. *)
Definition created : World :=
  mkWorld [Notification.mk 1 "helltide" helltide 1000 1600 false] [guild1] 1.

End Sample.

(** An occurrence that is fully handled: the guard of line 70 fails on
    its row. *)
Definition settled (n : Notification.t) : Prop :=
  (Notification.refreshTimestamp n <= 0)%Z \/ Notification.refreshed n = true.

(** An action that creates the record of the occurrence [(key, ts)] at
    most once, and not at all when the record is there; a create leaves
    the record. *)
Definition once (key : string) (ts : Z) {A} (m : M A) : Prop :=
  forall w, exists a w' t,
    m w = (Ok a, w', t) /\
    grows (notification w) (notification w') /\
    (record key ts w <> None -> creations key ts t = 0%nat) /\
    (creations key ts t <= 1)%nat /\
    (creations key ts t = 1%nat -> record key ts w' <> None).

(** ** Further observations on tables and traces *)

(** The key [findFirst] looks a row up by. *)
Definition occurrenceOf (n : Notification.t) : string * Z :=
  (Notification.type n, Notification.timestamp n).

(** No two rows of the table are for the same occurrence. *)
Definition distinctOccurrences (l : list Notification.t) : Prop :=
  NoDup (map occurrenceOf l).

(** An action under which a property of the table is kept. *)
Definition keeps (I : list Notification.t -> Prop) {A} (m : M A) : Prop :=
  forall w, I (notification w) -> I (notification (state_of (m w))).

(** The channel and the prior message id of every broadcast of a trace,
    in order. *)
Definition broadcastTargets (t : list Effect) : list (string * option string) :=
  flat_map (fun e => match e with
                     | Broadcast c _ i => [(c, i)]
                     | _ => []
                     end) t.

(** Line 164: the setting has a channel to send to. *)
Definition targetOf (s : Setting.t) : list (string * option string) :=
  match Setting.channelId s with
  | Some c => if truthy (Some c) then [(c, Setting.messageId s)] else []
  | None => []
  end.

(** The channels and prior message ids a guild's settings for a key ask
    for, in the order of [guild.events]. *)
Definition targetsOf (key : string) (g : Guild.t)
    : list (string * option string) :=
  flat_map targetOf (filter (forType key) (Guild.events g)).

(** A message as the dispatch for [key] and [event] to guild [g] can
    hold it: the one embed, the rendered title first, and at most one
    role allowed, a role of one of the guild's settings for the key. *)
Definition wellMentioned (title : string) (key : string) (event : Event.t)
    (g : Guild.t) (m : Message.t) : Prop :=
  Message.embeds m = [(key, event)] /\
  (exists tail, Message.content m = title ++ tail) /\
  (Message.allowedMentions m = None \/
   exists s r, In s (Guild.events g) /\ Setting.type s = key /\
               Setting.roleId s = Some r /\
               Message.allowedMentions m = Some [r]).

(** What line 154 appends for a setting: its mention, if it has a role. *)
Definition mentionSuffix (s : Setting.t) : string :=
  match Setting.roleId s with
  | Some role => if truthy (Some role) then " - <@&" ++ role ++ ">"
                 else EmptyString
  | None => EmptyString
  end.

(** ** Synchronous locale loading (src/i18n/i18n-util.sync.ts) *)

Module I18n.

(** The keys of [localeTranslations], lines 17-26; the type [Locales] of
    ./i18n-types ranges over them. *)
Inductive Locales := br | de | en | es | fr | it | jp | pl.

Definition eqb (a b : Locales) : bool :=
  match a, b with
  | br, br | de, de | en, en | es, es | fr, fr | it, it | jp, jp | pl, pl => true
  | _, _ => false
  end.

Section Sync.

(** The translation objects imported on lines 8-15, the formatters that
    [initFormatters] of ./formatters builds, and the list [locales] of
    ./i18n-util. *)
Variables Translations Formatters : Type.
Variable localeTranslations : Locales -> Translations.
Variable initFormatters : Locales -> Formatters.
Variable locales : list Locales.

(** The two objects of ./i18n-util that the loaders fill: a missing key
    reads as [undefined]. *)
Record Loaded := mkLoaded {
  loadedLocales : Locales -> option Translations;
  loadedFormatters : Locales -> option Formatters
}.

(** [object[locale] = value] *)
Definition assign {V} (object : Locales -> option V) (locale : Locales)
    (value : V) : Locales -> option V :=
  fun l => if eqb l locale then Some value else object l.

(** Lines 37-38. *)
Definition loadFormatters (locale : Locales) (s : Loaded) : Loaded :=
  mkLoaded (loadedLocales s)
           (assign (loadedFormatters s) locale (initFormatters locale)).

(** Lines 28-33.  A translation object is truthy, so the guard of line
    29 asks whether the key is there. *)
Definition loadLocale (locale : Locales) (s : Loaded) : Loaded :=
  match loadedLocales s locale with
  | Some _ => s
  | None =>
      loadFormatters locale
        (mkLoaded (assign (loadedLocales s) locale (localeTranslations locale))
                  (loadedFormatters s))
  end.

(** Line 35: [locales.forEach(loadLocale)]. *)
Definition loadAllLocales (s : Loaded) : Loaded :=
  fold_left (fun s locale => loadLocale locale s) locales s.

(** Every loaded locale has its formatters. *)
Definition formatted (s : Loaded) : Prop :=
  forall l, loadedLocales s l <> None -> loadedFormatters s l <> None.

End Sync.

Arguments mkLoaded {Translations Formatters}.
Arguments loadedLocales {Translations Formatters}.
Arguments loadedFormatters {Translations Formatters}.
Arguments loadFormatters {Translations Formatters}.
Arguments loadLocale {Translations Formatters}.
Arguments loadAllLocales {Translations Formatters}.
Arguments formatted {Translations Formatters}.

End I18n.

(** ** Further concrete worlds *)

Module Scenario.

(** The table once the sample Helltide has been refreshed. *)
Definition refreshed : World :=
  mkWorld [Notification.mk 1 "helltide" Sample.helltide 1000 1600 true]
          [Sample.guild1] 2.

(** A Helltide of second 1000 whose refresh is announced for second
    5000, more than an hour after its start, and the table holding it. *)
Definition late : Event.t := Event.mk 1000 5000 "zone".

Definition lateWorld : World :=
  mkWorld [Notification.mk 1 "helltide" late 1000 5000 false]
          [Sample.guild1] 1.

(** A guild whose first Helltide setting has a role and no channel. *)
Definition guild2 : Guild.t :=
  Guild.mk 2 "g2" "en"
    [Setting.mk "helltide" None (Some "r1") None;
     Setting.mk "legion" (Some "c9") (Some "r9") None;
     Setting.mk "helltide" (Some "c2") (Some "r2") (Some "m7")].

Definition sampleTick (now : Z) : Tick :=
  mkTick Sample.available (Some [("helltide", Sample.helltide)])
         (fun _ => Sample.at_ now).

(** Locale tables in which English has a translation and no formatters. *)
Definition translations (l : I18n.Locales) : string := "translation".
Definition formatters (l : I18n.Locales) : string := "formatters".

Definition partly : I18n.Loaded string string :=
  I18n.mkLoaded (fun l => if I18n.eqb l I18n.en then Some "en" else None)
                (fun _ => None).

Definition nothing : I18n.Loaded string string :=
  I18n.mkLoaded (fun _ => @None string) (fun _ => @None string).

End Scenario.

(** ** Broadcasters that fail *)

Module Failing.

(** A broadcaster whose answer holds a null entry: nothing was sent. *)
Definition nullEntry (_ : nat) (_ : string) (_ : Message.t)
    (_ : option string) : Response := Some [None].

Definition sendsNull (now : Z) : Oracle := mkOracle now None None nullEntry.

(** A broadcaster whose answer is an empty list. *)
Definition sendsNothing (now : Z) : Oracle :=
  mkOracle now None None (fun _ _ _ _ => Some []).

End Failing.

(** ** The monad's equations *)

Lemma bind_ok {A B} (m : M A) (f : A -> M B) w a w1 t1 :
  m w = (Ok a, w1, t1) ->
  bind m f w = (result_of (f a w1), state_of (f a w1),
                (t1 ++ trace_of (f a w1))%list).
Proof.
  intros E. unfold bind, result_of, state_of, trace_of. rewrite E.
  destruct (f a w1) as [[r w2] t2]. reflexivity.
Qed.

Lemma surjective_run {A} (x : Result A * World * list Effect) :
  x = (result_of x, state_of x, trace_of x).
Proof. destruct x as [[r w] t]. reflexivity. Qed.

Lemma bind_ret_l {A B} (a : A) (f : A -> M B) w : bind (ret a) f w = f a w.
Proof.
  unfold bind, ret. destruct (f a w) as [[r w2] t2]. reflexivity.
Qed.

Lemma bind_log {B} (l : Log) (f : unit -> M B) w :
  bind (log l) f w =
  (result_of (f tt w), state_of (f tt w), Logged l :: trace_of (f tt w)).
Proof.
  unfold bind, log, emit, result_of, state_of, trace_of.
  destruct (f tt w) as [[r w2] t2]. reflexivity.
Qed.

Lemma forEach_cons {A} (x : A) (l : list A) (body : A -> M unit) w :
  forEach (x :: l) body w = bind (body x) (fun _ => forEach l body) w.
Proof. reflexivity. Qed.

(** ** The table only grows *)

Lemma row_le_refl n : row_le n n.
Proof. unfold row_le. tauto. Qed.

Lemma row_le_trans a b c : row_le a b -> row_le b c -> row_le a c.
Proof. unfold row_le. intuition congruence. Qed.

Lemma Forall2_row_le_refl l : Forall2 row_le l l.
Proof. induction l; constructor; auto using row_le_refl. Qed.

Lemma grows_refl l : grows l l.
Proof.
  exists l, []. split; [now rewrite app_nil_r | apply Forall2_row_le_refl].
Qed.

Lemma Forall2_row_le_trans l1 : forall l2 l3,
  Forall2 row_le l1 l2 -> Forall2 row_le l2 l3 -> Forall2 row_le l1 l3.
Proof.
  induction l1 as [|a l1 IH]; intros l2 l3 H12 H23.
  - inversion H12; subst. inversion H23; subst. constructor.
  - inversion H12; subst. inversion H23; subst.
    constructor; eauto using row_le_trans.
Qed.

Lemma grows_trans l1 l2 l3 : grows l1 l2 -> grows l2 l3 -> grows l1 l3.
Proof.
  intros (a & ea & -> & Ha) (b & eb & -> & Hb).
  apply Forall2_app_inv_l in Hb as (b1 & b2 & Hb1 & Hb2 & ->).
  exists b1, (b2 ++ eb)%list. split.
  - now rewrite app_assoc.
  - eapply Forall2_row_le_trans; eauto.
Qed.

Lemma row_le_sameOccurrence key ts n n' :
  row_le n n' -> sameOccurrence key ts n' = sameOccurrence key ts n.
Proof.
  intros (_ & Ht & _ & Hs & _). unfold sameOccurrence. now rewrite Ht, Hs.
Qed.

Lemma grows_find key ts l l' n :
  grows l l' ->
  find (sameOccurrence key ts) l = Some n ->
  exists n', find (sameOccurrence key ts) l' = Some n' /\ row_le n n'.
Proof.
  intros (l1 & extra & -> & H). revert n.
  induction H as [|a b l l1 Hab H IH]; intros n Hf; simpl in *.
  - discriminate.
  - rewrite (row_le_sameOccurrence key ts a b Hab).
    destruct (sameOccurrence key ts a).
    + inversion Hf; subst. eauto.
    + auto.
Qed.

Lemma grows_create l row : grows l (l ++ [row]).
Proof. exists l, [row]. split; [reflexivity | apply Forall2_row_le_refl]. Qed.

Lemma grows_update l id :
  grows l (map (fun n => if (Notification.id n =? id)%Z
                         then Notification.setRefreshed n else n) l).
Proof.
  eexists _, []. split; [now rewrite app_nil_r|].
  induction l as [|a l IH]; simpl; constructor; auto.
  destruct (Notification.id a =? id)%Z; [|apply row_le_refl].
  unfold row_le; simpl; tauto.
Qed.

(** ** Every action of the tick is steady *)

Lemma steady_ret {A} (a : A) : steady (ret a).
Proof. intros w. exists a, w, []. split; [reflexivity | apply grows_refl]. Qed.

Lemma steady_log l : steady (log l).
Proof. intros w. eexists _, w, _. split; [reflexivity | apply grows_refl]. Qed.

Lemma steady_bind {A B} (m : M A) (f : A -> M B) :
  steady m -> (forall a, steady (f a)) -> steady (bind m f).
Proof.
  intros Hm Hf w. destruct (Hm w) as (a & w1 & t1 & E1 & G1).
  destruct (Hf a w1) as (b & w2 & t2 & E2 & G2).
  exists b, w2, (t1 ++ t2)%list. split.
  - unfold bind. rewrite E1, E2. reflexivity.
  - eapply grows_trans; eauto.
Qed.

Lemma steady_forEach {A} (l : list A) (body : A -> M unit) :
  (forall x, steady (body x)) -> steady (forEach l body).
Proof.
  intros H. induction l as [|x l IH]; simpl.
  - apply steady_ret.
  - apply steady_bind; auto.
Qed.

Lemma steady_forEachWith {A S} (l : list A) (body : S -> A -> M S) :
  (forall s x, steady (body s x)) -> forall s, steady (forEachWith l body s).
Proof.
  intros H. induction l as [|x l IH]; intros s; simpl.
  - apply steady_ret.
  - apply steady_bind; auto.
Qed.

Lemma steady_findFirst key ts : steady (findFirst key ts).
Proof. intros w. eexists _, w, _. split; [reflexivity | apply grows_refl]. Qed.

Lemma steady_getAllByEvent key : steady (getAllByEvent key).
Proof. intros w. eexists _, w, _. split; [reflexivity | apply grows_refl]. Qed.

Lemma steady_broadcast O c m i : steady (broadcast O c m i).
Proof. intros w. eexists _, _, _. split; [reflexivity | apply grows_refl]. Qed.

Lemma steady_updateEventMessageId g k c i :
  steady (updateEventMessageId g k c i).
Proof.
  intros w. eexists _, _, _. split; [reflexivity|].
  destruct i; apply grows_refl.
Qed.

Lemma steady_create_caught fails key data ts rts :
  steady (try_catch (create fails key data ts rts)
                    (fun msg => log (CreateFailed key msg))).
Proof.
  intros w. unfold try_catch, create. destruct fails as [msg|]; simpl.
  - eexists _, w, _. split; [reflexivity | apply grows_refl].
  - eexists _, _, _. split; [reflexivity | apply grows_create].
Qed.

Lemma steady_update_caught fails key id :
  steady (try_catch (update fails id)
                    (fun msg => log (RefreshFailed key msg))).
Proof.
  intros w. unfold try_catch, update. destruct fails as [msg|]; simpl.
  - eexists _, w, _. split; [reflexivity | apply grows_refl].
  - eexists _, _, _. split; [reflexivity | apply grows_update].
Qed.

Create HintDb steady.

#[local] Hint Resolve steady_ret steady_log steady_bind steady_forEach
  steady_forEachWith steady_findFirst steady_getAllByEvent steady_broadcast
  steady_updateEventMessageId steady_create_caught steady_update_caught
  : steady.

Section NotifierFacts.

Variable getTitle : string -> Event.t -> string -> string.

Lemma steady_refresh_setting O key g message setting :
  steady (refresh_setting O key g message setting).
Proof.
  unfold refresh_setting.
  apply steady_bind; [auto with steady|]. intros _.
  destruct (Setting.channelId setting) as [c|]; [|auto with steady].
  destruct (truthy (Some c)); [|auto with steady].
  apply steady_bind; [auto with steady|].
  intros [[|first rest]|]; auto with steady.
Qed.

Lemma steady_refresh_guild O key event g :
  steady (refresh_guild getTitle O key event g).
Proof.
  unfold refresh_guild.
  apply steady_bind; [auto with steady|]. intros _.
  destruct (List.length _ =? 0)%nat; [auto with steady|].
  apply steady_bind; [|auto with steady].
  apply steady_forEachWith. intros; apply steady_refresh_setting.
Qed.

Lemma steady_refresh_broadcast O key event :
  steady (refresh_broadcast getTitle O key event).
Proof.
  unfold refresh_broadcast.
  apply steady_bind; [auto with steady|]. intros guilds.
  apply steady_bind; [auto with steady|]. intros _.
  apply steady_bind; [|auto with steady].
  apply steady_forEach. intros; apply steady_refresh_guild.
Qed.

Lemma steady_refresh_create O key event :
  steady (refresh_create O key event).
Proof.
  unfold refresh_create.
  destruct (_ && _); [auto with steady|].
  apply steady_bind; [auto with steady|]. intros _.
  destruct (_ >? _)%Z; auto with steady.
Qed.

Lemma steady_refresh_refresh O key exist :
  steady (refresh_refresh O key exist).
Proof.
  unfold refresh_refresh.
  destruct (_ && _); [|auto with steady].
  destruct (_ || _); auto with steady.
Qed.

Lemma steady_refresh_event O key event :
  steady (refresh_event getTitle O key event).
Proof.
  unfold refresh_event.
  apply steady_bind; [auto with steady|]. intros exist.
  destruct (match exist with None => true | Some _ => _ end);
    [|auto with steady].
  apply steady_bind.
  - destruct exist; [auto with steady | apply steady_refresh_create].
  - intros [|]; [|auto with steady].
    apply steady_bind.
    + destruct exist; [apply steady_refresh_refresh | auto with steady].
    + intros [|]; [apply steady_refresh_broadcast | auto with steady].
Qed.

Lemma steady_refresh status events env :
  steady (refresh getTitle status events env).
Proof.
  unfold refresh.
  apply steady_bind; [auto with steady|]. intros _.
  destruct status as [[[[|]|]]|]; auto with steady.
  destruct events as [entries|]; auto with steady.
  apply steady_forEach. intros; apply steady_refresh_event.
Qed.

Lemma steady_run ticks : steady (run getTitle ticks).
Proof.
  unfold run. apply steady_forEach. intros; apply steady_refresh.
Qed.

End NotifierFacts.

Section Lifecycle.

Variable getTitle : string -> Event.t -> string -> string.

(** *** The three states of an occurrence *)

(** Unseen: lines 72-103, then the dispatch unless [continue] is hit. *)
Lemma refresh_event_unseen O key event w :
  record key (Event.timestamp event) w = None ->
  refresh_event getTitle O key event w =
  bind (refresh_create O key event)
       (fun go => if go then refresh_broadcast getTitle O key event
                  else ret tt) w.
Proof.
  intros H. unfold refresh_event.
  unfold bind at 1. unfold findFirst. fold (record key (Event.timestamp event) w).
  rewrite H. simpl.
  unfold bind at 1 3.
  destruct (refresh_create O key event w) as [[[[|]|e] w1] t1]; simpl.
  - rewrite bind_ret_l.
    destruct (refresh_broadcast getTitle O key event w1) as [[r w2] t2].
    reflexivity.
  - reflexivity.
  - reflexivity.
Qed.

(** Created with a refresh phase still ahead: lines 106-130, then the
    dispatch unless [continue] is hit. *)
Lemma refresh_event_pending O key event w exist :
  record key (Event.timestamp event) w = Some exist ->
  (Notification.refreshTimestamp exist > 0)%Z ->
  Notification.refreshed exist = false ->
  refresh_event getTitle O key event w =
  bind (refresh_refresh O key exist)
       (fun go => if go then refresh_broadcast getTitle O key event
                  else ret tt) w.
Proof.
  intros H HR Hr. unfold refresh_event.
  unfold bind at 1. unfold findFirst. fold (record key (Event.timestamp event) w).
  rewrite H, Hr. simpl.
  replace (Notification.refreshTimestamp exist >? 0)%Z with true
    by (symmetry; apply Z.gtb_lt; lia).
  simpl. rewrite bind_ret_l.
  destruct (bind (refresh_refresh O key exist) _ w) as [[r w2] t2].
  reflexivity.
Qed.

(** Fully handled: the guard of line 70 is false and nothing happens. *)
Lemma refresh_event_handled O key event w exist :
  record key (Event.timestamp event) w = Some exist ->
  (Notification.refreshTimestamp exist <= 0)%Z \/
  Notification.refreshed exist = true ->
  refresh_event getTitle O key event w = (Ok tt, w, []).
Proof.
  intros H Hd. unfold refresh_event.
  unfold bind at 1. unfold findFirst. fold (record key (Event.timestamp event) w).
  rewrite H.
  replace ((Notification.refreshTimestamp exist >? 0)%Z
           && negb (Notification.refreshed exist)) with false; [reflexivity|].
  destruct Hd as [Hd|Hd].
  - replace (Notification.refreshTimestamp exist >? 0)%Z with false;
      [reflexivity|].
    symmetry. rewrite Z.gtb_ltb. apply Z.ltb_ge. lia.
  - rewrite Hd. now rewrite andb_false_r.
Qed.

End Lifecycle.

(** ** The dispatch neither reads nor writes the notification table *)

Lemma delivery_ret {A} (a : A) : delivery (ret a).
Proof. intros w. exists a, w, []. repeat split. Qed.

Lemma delivery_log l :
  startsBroadcast (Logged l) = false -> delivery (log l).
Proof.
  intros H w. exists tt, w, [Logged l]. repeat split.
  simpl. unfold deliveryEffect. simpl isCreate. simpl isUpdate.
  now rewrite H.
Qed.

Lemma delivery_bind {A B} (m : M A) (f : A -> M B) :
  delivery m -> (forall a, delivery (f a)) -> delivery (bind m f).
Proof.
  intros Hm Hf w. destruct (Hm w) as (a & w1 & t1 & E1 & N1 & F1 & L1).
  destruct (Hf a w1) as (b & w2 & t2 & E2 & N2 & F2 & L2).
  exists b, w2, (t1 ++ t2)%list. repeat split.
  - unfold bind. now rewrite E1, E2.
  - congruence.
  - rewrite forallb_app. now rewrite F1, F2.
  - intros l. unfold bind. now rewrite L1, L2.
Qed.

Lemma delivery_forEach {A} (l : list A) (body : A -> M unit) :
  (forall x, delivery (body x)) -> delivery (forEach l body).
Proof.
  intros H. induction l as [|x l IH]; simpl.
  - apply delivery_ret.
  - apply delivery_bind; auto.
Qed.

Lemma delivery_forEachWith {A S} (l : list A) (body : S -> A -> M S) :
  (forall s x, delivery (body s x)) ->
  forall s, delivery (forEachWith l body s).
Proof.
  intros H. induction l as [|x l IH]; intros s; simpl.
  - apply delivery_ret.
  - apply delivery_bind; auto.
Qed.

Lemma delivery_broadcast O c m i : delivery (broadcast O c m i).
Proof. intros w. eexists _, _, _. repeat split. Qed.

Lemma delivery_updateEventMessageId g k c i :
  delivery (updateEventMessageId g k c i).
Proof.
  intros w. eexists _, _, _. split; [reflexivity|].
  destruct i; repeat split.
Qed.

Create HintDb delivery.

#[local] Hint Resolve delivery_ret delivery_bind delivery_forEach
  delivery_forEachWith delivery_broadcast delivery_updateEventMessageId
  : delivery.

#[local] Hint Extern 1 (delivery (log _)) =>
  apply delivery_log; reflexivity : delivery.

Section Dispatch.

Variable getTitle : string -> Event.t -> string -> string.

Lemma delivery_refresh_setting O key g message setting :
  delivery (refresh_setting O key g message setting).
Proof.
  unfold refresh_setting.
  apply delivery_bind; [auto with delivery|]. intros _.
  destruct (Setting.channelId setting) as [c|]; [|auto with delivery].
  destruct (truthy (Some c)); [|auto with delivery].
  apply delivery_bind; [auto with delivery|].
  intros [[|first rest]|]; auto with delivery.
Qed.

Lemma delivery_refresh_guild O key event g :
  delivery (refresh_guild getTitle O key event g).
Proof.
  unfold refresh_guild.
  apply delivery_bind; [auto with delivery|]. intros _.
  destruct (List.length _ =? 0)%nat; [auto with delivery|].
  apply delivery_bind; [|auto with delivery].
  apply delivery_forEachWith. intros; apply delivery_refresh_setting.
Qed.

Lemma delivery_refresh_guilds O key event guilds :
  delivery (refresh_guilds getTitle O key event guilds).
Proof.
  unfold refresh_guilds.
  apply delivery_bind; [|auto with delivery].
  apply delivery_forEach. intros; apply delivery_refresh_guild.
Qed.

(** The dispatch announces itself first, then delivers. *)
Lemma refresh_broadcast_run O key event w :
  exists w' t,
    refresh_broadcast getTitle O key event w =
      (Ok tt, w',
       Logged (FoundGuilds (List.length (subscribers key w)) key) :: t) /\
    notification w' = notification w /\
    forallb deliveryEffect t = true /\
    forall l,
      refresh_broadcast getTitle O key event (withTable l w) =
      (Ok tt, withTable l w',
       Logged (FoundGuilds (List.length (subscribers key w)) key) :: t).
Proof.
  destruct (delivery_refresh_guilds O key event (subscribers key w) w)
    as ([] & w' & t & E & N & F & L).
  exists w', t. unfold refresh_guilds in *.
  assert (R : forall v, guild v = guild w ->
    refresh_broadcast getTitle O key event v =
    (result_of (refresh_guilds getTitle O key event (subscribers key w) v),
     state_of (refresh_guilds getTitle O key event (subscribers key w) v),
     Logged (FoundGuilds (List.length (subscribers key w)) key)
       :: trace_of (refresh_guilds getTitle O key event (subscribers key w) v))).
  { intros v Hv. unfold refresh_broadcast.
    unfold bind at 1. unfold getAllByEvent.
    fold (subscribers key v).
    replace (subscribers key v) with (subscribers key w)
      by (unfold subscribers; now rewrite Hv).
    rewrite bind_log. unfold refresh_guilds.
    destruct (bind (forEach _ _) _ v) as [[r v2] t2]. reflexivity. }
  repeat split; auto.
  - rewrite (R w eq_refl). unfold refresh_guilds. now rewrite E.
  - intros l. rewrite (R (withTable l w) eq_refl).
    unfold refresh_guilds. now rewrite L.
Qed.

End Dispatch.

(** ** The two branches of the lifecycle, run *)

Section Branches.

Variable getTitle : string -> Event.t -> string -> string.

Lemma refresh_create_recent O key event w :
  tooRecent O key event = true ->
  refresh_create O key event w = (Ok false, w, [Logged (TooRecent key)]).
Proof.
  unfold tooRecent, refresh_create. intros ->. reflexivity.
Qed.

Lemma refresh_create_run O key event w :
  tooRecent O key event = false ->
  refresh_create O key event w =
  (Ok (negb (tooOld O event)), afterCreate O key event w,
   (createTrace O key event
    ++ if tooOld O event then [Logged (TooOld key)] else [])%list).
Proof.
  unfold tooRecent, refresh_create. intros ->.
  unfold afterCreate, createTrace, tooOld, refreshTimestampFor, createdRow.
  unfold bind, try_catch, create, withTable.
  destruct (createFails O) as [msg|]; simpl;
    destruct (now O >? _)%Z; reflexivity.
Qed.

Lemma refresh_refresh_waiting O key exist w :
  (Notification.refreshTimestamp exist > 0)%Z ->
  Notification.refreshed exist = false ->
  refreshDue O exist = false ->
  refresh_refresh O key exist w = (Ok false, w, [Logged (NotReady key)]).
Proof.
  intros HR Hr. unfold refreshDue, refresh_refresh. rewrite Hr.
  replace (Notification.refreshTimestamp exist =? 0)%Z with false
    by (symmetry; apply Z.eqb_neq; lia).
  replace (Notification.refreshTimestamp exist >? 0)%Z with true
    by (symmetry; apply Z.gtb_lt; lia).
  simpl. intros H. apply negb_false_iff in H. rewrite H. reflexivity.
Qed.

Lemma refresh_refresh_run O key exist w :
  (Notification.refreshTimestamp exist > 0)%Z ->
  Notification.refreshed exist = false ->
  refreshDue O exist = true ->
  refresh_refresh O key exist w =
  (Ok true, afterUpdate O exist w, updateTrace O key exist).
Proof.
  intros HR Hr. unfold refreshDue, refresh_refresh. rewrite Hr.
  replace (Notification.refreshTimestamp exist =? 0)%Z with false
    by (symmetry; apply Z.eqb_neq; lia).
  replace (Notification.refreshTimestamp exist >? 0)%Z with true
    by (symmetry; apply Z.gtb_lt; lia).
  simpl. intros H. apply negb_true_iff in H. rewrite H.
  unfold afterUpdate, updateTrace, bind, try_catch, update, withTable.
  destruct (updateFails O) as [msg|]; reflexivity.
Qed.

(** The refresh is due exactly in the window the spec describes. *)
Lemma refreshDue_iff O exist :
  refreshDue O exist = true <->
  (Notification.timestamp exist * 1000 <= now O
     <= Notification.timestamp exist * 1000 + 3600 * 1000 /\
   Notification.refreshTimestamp exist * 1000 <= now O)%Z.
Proof.
  unfold refreshDue, duration.hours, duration.minutes, duration.seconds.
  rewrite negb_true_iff, orb_false_iff, negb_false_iff, andb_true_iff.
  rewrite Z.geb_le, Z.leb_le, Z.ltb_ge. lia.
Qed.

End Branches.

(** ** One event, case by case *)

Lemma withTable_same w : withTable (notification w) w = w.
Proof. destruct w; reflexivity. Qed.

Lemma afterCreate_withTable O key event w :
  afterCreate O key event w =
  withTable (notification (afterCreate O key event w)) w.
Proof.
  unfold afterCreate. destruct (createFails O); simpl.
  - now rewrite withTable_same.
  - reflexivity.
Qed.

Lemma afterUpdate_withTable O exist w :
  afterUpdate O exist w = withTable (notification (afterUpdate O exist w)) w.
Proof.
  unfold afterUpdate. destruct (updateFails O); simpl.
  - now rewrite withTable_same.
  - reflexivity.
Qed.

Lemma deliveryEffect_quiet t :
  forallb deliveryEffect t = true ->
  existsb isCreate t = false /\ existsb isUpdate t = false /\
  existsb startsBroadcast t = false.
Proof.
  induction t as [|e t IH]; simpl; [auto|].
  rewrite andb_true_iff. intros [He Ht]. destruct (IH Ht) as (A & B & C).
  unfold deliveryEffect in He.
  rewrite !andb_true_iff, !negb_true_iff in He. destruct He as [[-> ->] ->].
  simpl. auto.
Qed.

Section Cases.

Variable getTitle : string -> Event.t -> string -> string.

(** Unseen and inside the grace period: only the log line of line 79. *)
Lemma refresh_event_recent O key event w :
  record key (Event.timestamp event) w = None ->
  tooRecent O key event = true ->
  refresh_event getTitle O key event w = (Ok tt, w, [Logged (TooRecent key)]).
Proof.
  intros H Hr. rewrite refresh_event_unseen by exact H.
  rewrite (bind_ok _ _ _ _ _ _ (refresh_create_recent O key event w Hr)).
  reflexivity.
Qed.

(** Unseen and past the staleness bound: the create, then [continue]. *)
Lemma refresh_event_stale O key event w :
  record key (Event.timestamp event) w = None ->
  tooRecent O key event = false ->
  tooOld O event = true ->
  refresh_event getTitle O key event w =
  (Ok tt, afterCreate O key event w,
   (createTrace O key event ++ [Logged (TooOld key)])%list).
Proof.
  intros H Hr Ho. rewrite refresh_event_unseen by exact H.
  rewrite (bind_ok _ _ _ _ _ _ (refresh_create_run O key event w Hr)).
  rewrite Ho. simpl. now rewrite app_nil_r.
Qed.

(** Unseen, past the grace period and not stale: the create, then the
    dispatch, which runs as it would from the world before the create. *)
Lemma refresh_event_notify O key event w :
  record key (Event.timestamp event) w = None ->
  tooRecent O key event = false ->
  tooOld O event = false ->
  exists w' t,
    refresh_broadcast getTitle O key event w =
      (Ok tt, w',
       Logged (FoundGuilds (List.length (subscribers key w)) key) :: t) /\
    forallb deliveryEffect t = true /\
    refresh_event getTitle O key event w =
      (Ok tt, withTable (notification (afterCreate O key event w)) w',
       (createTrace O key event
        ++ Logged (FoundGuilds (List.length (subscribers key w)) key) :: t)%list).
Proof.
  intros H Hr Ho.
  destruct (refresh_broadcast_run getTitle O key event w)
    as (w' & t & E & N & F & L).
  exists w', t. repeat split; auto.
  rewrite refresh_event_unseen by exact H.
  rewrite (bind_ok _ _ _ _ _ _ (refresh_create_run O key event w Hr)).
  rewrite Ho. simpl negb. cbv iota.
  rewrite afterCreate_withTable, L. simpl. now rewrite app_nil_r.
Qed.

(** Created, refresh phase ahead, not yet due: only line 114. *)
Lemma refresh_event_waiting O key event w exist :
  record key (Event.timestamp event) w = Some exist ->
  (Notification.refreshTimestamp exist > 0)%Z ->
  Notification.refreshed exist = false ->
  refreshDue O exist = false ->
  refresh_event getTitle O key event w = (Ok tt, w, [Logged (NotReady key)]).
Proof.
  intros H HR Hr Hd.
  rewrite (refresh_event_pending getTitle O key event w exist H HR Hr).
  rewrite (bind_ok _ _ _ _ _ _
             (refresh_refresh_waiting O key exist w HR Hr Hd)).
  reflexivity.
Qed.

(** Created, refresh phase ahead and due: the update, then the dispatch. *)
Lemma refresh_event_refreshing O key event w exist :
  record key (Event.timestamp event) w = Some exist ->
  (Notification.refreshTimestamp exist > 0)%Z ->
  Notification.refreshed exist = false ->
  refreshDue O exist = true ->
  exists w' t,
    refresh_broadcast getTitle O key event w =
      (Ok tt, w',
       Logged (FoundGuilds (List.length (subscribers key w)) key) :: t) /\
    forallb deliveryEffect t = true /\
    refresh_event getTitle O key event w =
      (Ok tt, withTable (notification (afterUpdate O exist w)) w',
       (updateTrace O key exist
        ++ Logged (FoundGuilds (List.length (subscribers key w)) key) :: t)%list).
Proof.
  intros H HR Hr Hd.
  destruct (refresh_broadcast_run getTitle O key event w)
    as (w' & t & E & N & F & L).
  exists w', t. repeat split; auto.
  rewrite (refresh_event_pending getTitle O key event w exist H HR Hr).
  rewrite (bind_ok _ _ _ _ _ _
             (refresh_refresh_run O key exist w HR Hr Hd)).
  cbv iota.
  rewrite afterUpdate_withTable, L. reflexivity.
Qed.

End Cases.

(** ** What the table holds after a write *)

Lemma find_app_new {A} (f : A -> bool) l x :
  find f l = None -> f x = true -> find f (l ++ [x]) = Some x.
Proof.
  induction l as [|a l IH]; simpl; intros H Hx.
  - now rewrite Hx.
  - destruct (f a); [discriminate | auto].
Qed.

Lemma record_withTable key ts l w :
  record key ts (withTable l w) = find (sameOccurrence key ts) l.
Proof. reflexivity. Qed.

Lemma sameOccurrence_createdRow key event w :
  sameOccurrence key (Event.timestamp event) (createdRow key event w) = true.
Proof.
  unfold sameOccurrence, createdRow. simpl.
  now rewrite String.eqb_refl, Z.eqb_refl.
Qed.

Lemma record_afterCreate O key event w w' :
  record key (Event.timestamp event) w = None ->
  createFails O = None ->
  record key (Event.timestamp event)
         (withTable (notification (afterCreate O key event w)) w')
  = Some (createdRow key event w).
Proof.
  intros H Hc. rewrite record_withTable. unfold afterCreate. rewrite Hc.
  simpl. apply find_app_new; [exact H | apply sameOccurrence_createdRow].
Qed.

Lemma find_refreshed key ts l exist :
  find (sameOccurrence key ts) l = Some exist ->
  find (sameOccurrence key ts)
       (map (fun n => if (Notification.id n =? Notification.id exist)%Z
                      then Notification.setRefreshed n else n) l)
  = Some (Notification.setRefreshed exist).
Proof.
  induction l as [|a l IH]; simpl; [discriminate|].
  assert (S : sameOccurrence key ts
                (if (Notification.id a =? Notification.id exist)%Z
                 then Notification.setRefreshed a else a)
              = sameOccurrence key ts a).
  { destruct (Notification.id a =? Notification.id exist)%Z; reflexivity. }
  rewrite S. destruct (sameOccurrence key ts a).
  - intros E. inversion E; subst. now rewrite Z.eqb_refl.
  - exact IH.
Qed.

Lemma record_afterUpdate O key ts exist w w' :
  record key ts w = Some exist ->
  updateFails O = None ->
  record key ts (withTable (notification (afterUpdate O exist w)) w')
  = Some (Notification.setRefreshed exist).
Proof.
  intros H Hu. rewrite record_withTable. unfold afterUpdate. rewrite Hu.
  simpl. now apply find_refreshed.
Qed.

Lemma record_sameOccurrence key ts w n :
  record key ts w = Some n ->
  Notification.type n = key /\ Notification.timestamp n = ts.
Proof.
  intros H. apply find_some in H as [_ H]. unfold sameOccurrence in H.
  apply andb_true_iff in H as [H1 H2].
  apply String.eqb_eq in H1. apply Z.eqb_eq in H2. auto.
Qed.

(** ** An occurrence that is fully handled stays so *)

Lemma settled_row_le n n' : row_le n n' -> settled n -> settled n'.
Proof.
  intros (_ & _ & _ & _ & HR & Hr) [H|H]; [left | right]; auto. now rewrite HR.
Qed.

Section Forever.

Variable getTitle : string -> Event.t -> string -> string.

Lemma record_kept {A} (m : M A) key ts w n :
  steady m ->
  record key ts w = Some n ->
  exists n', record key ts (state_of (m w)) = Some n' /\ row_le n n'.
Proof.
  intros Hm H. destruct (Hm w) as (a & w' & t & E & G).
  rewrite E. simpl. eapply grows_find; eauto.
Qed.

Lemma settled_forever key ts w n ticks :
  record key ts w = Some n ->
  settled n ->
  exists n',
    record key ts (state_of (run getTitle ticks w)) = Some n' /\
    row_le n n' /\ settled n' /\
    forall O event, Event.timestamp event = ts ->
      refresh_event getTitle O key event (state_of (run getTitle ticks w))
      = (Ok tt, state_of (run getTitle ticks w), []).
Proof.
  intros H Hs.
  destruct (record_kept (run getTitle ticks) key ts w n
              (steady_run getTitle ticks) H) as (n' & H' & Hle).
  exists n'. split; [exact H' | split; [exact Hle | split]].
  - eapply settled_row_le; eauto.
  - intros O event <-.
    eapply refresh_event_handled; [exact H' | eapply settled_row_le; eauto].
Qed.

End Forever.

(** ** Properties of the lifecycle *)

Section Properties.

Variable getTitle : string -> Event.t -> string -> string.

(** C7. A tick whose status fetch is absent or reports the event service
    unavailable, or whose events fetch is absent, ends early: it returns
    normally, leaves both stores as they were, and emits nothing but log
    lines (no create, no update, no broadcast, no write-back). *)
Theorem source_unavailable_no_effects status events env w :
  status = None \/
  (exists s, status = Some s /\ event_service s <> Some true) \/
  events = None ->
  result_of (refresh getTitle status events env w) = Ok tt /\
  state_of (refresh getTitle status events env w) = w /\
  forallb isLogged (trace_of (refresh getTitle status events env w)) = true.
Proof.
  intros H. unfold refresh. rewrite bind_log.
  destruct status as [[[[|]|]]|]; try (repeat split; reflexivity).
  destruct H as [H|[(s & Hs & Hn)|H]].
  - discriminate.
  - inversion Hs; subst. simpl in Hn. congruence.
  - subst. repeat split; reflexivity.
Qed.

(** C6. An occurrence first sighted more than five minutes after its
    timestamp: the create is issued (before the staleness check), then the
    code logs that the event is too old and moves on.  No broadcast and no
    write-back happens, the notify-trigger does not fire, and when the
    store accepts the create the record is in the table. *)
Theorem staleness_suppression O key event w :
  record key (Event.timestamp event) w = None ->
  (now O > Event.timestamp event * 1000 + 5 * 60 * 1000)%Z ->
  trace_of (refresh_event getTitle O key event w)
    = (createTrace O key event ++ [Logged (TooOld key)])%list /\
  existsb isBroadcast (trace_of (refresh_event getTitle O key event w)) = false /\
  notify_trigger (trace_of (refresh_event getTitle O key event w)) = false /\
  guild (state_of (refresh_event getTitle O key event w)) = guild w /\
  (createFails O = None ->
   record key (Event.timestamp event)
          (state_of (refresh_event getTitle O key event w))
   = Some (createdRow key event w)).
Proof.
  intros H Hn.
  assert (Hr : tooRecent O key event = false).
  { unfold tooRecent, duration.seconds.
    replace (now O <? _)%Z with false; [apply andb_false_r|].
    symmetry. apply Z.ltb_ge. lia. }
  assert (Ho : tooOld O event = true).
  { unfold tooOld, duration.minutes, duration.seconds.
    apply Z.gtb_lt. lia. }
  rewrite (refresh_event_stale getTitle O key event w H Hr Ho).
  unfold trace_of, state_of. cbn [fst snd].
  split; [reflexivity|]. split; [|split; [|split]].
  - unfold createTrace. destruct (createFails O); reflexivity.
  - unfold notify_trigger, createTrace.
    destruct (createFails O); reflexivity.
  - unfold afterCreate. destruct (createFails O); reflexivity.
  - intros Hc. rewrite afterCreate_withTable.
    now apply record_afterCreate.
Qed.

End Properties.

(** A tick whose status fetch failed, although the events arrived. *)
Lemma source_unavailable_no_effects_witness :
  result_of (refresh Sample.title None (Some [("helltide", Sample.helltide)])
                     (fun _ => Sample.at_ 1040000) Sample.empty) = Ok tt /\
  state_of (refresh Sample.title None (Some [("helltide", Sample.helltide)])
                    (fun _ => Sample.at_ 1040000) Sample.empty) = Sample.empty /\
  forallb isLogged
    (trace_of (refresh Sample.title None (Some [("helltide", Sample.helltide)])
                       (fun _ => Sample.at_ 1040000) Sample.empty)) = true.
Proof.
  apply (source_unavailable_no_effects Sample.title None
           (Some [("helltide", Sample.helltide)])
           (fun _ => Sample.at_ 1040000) Sample.empty).
  left. reflexivity.
Defined.

(** A Helltide of second 1000 first seen at second 1400. *)
Lemma staleness_suppression_witness :
  trace_of (refresh_event Sample.title (Sample.at_ 1400000) "helltide"
                          Sample.helltide Sample.empty)
  = [Create "helltide" Sample.helltide 1000 1600; Logged (TooOld "helltide")] /\
  record "helltide" 1000
    (state_of (refresh_event Sample.title (Sample.at_ 1400000) "helltide"
                             Sample.helltide Sample.empty))
  = Some (Notification.mk 1 "helltide" Sample.helltide 1000 1600 false).
Proof.
  pose proof (staleness_suppression Sample.title (Sample.at_ 1400000)
                "helltide" Sample.helltide Sample.empty) as H.
  destruct H as (Ht & _ & _ & _ & Hrec).
  - reflexivity.
  - simpl. lia.
  - split; [exact Ht | apply Hrec; reflexivity].
Defined.

Lemma notify_trigger_create O key event n t :
  notify_trigger (createTrace O key event
                  ++ Logged (FoundGuilds n key) :: t)%list = true.
Proof.
  unfold notify_trigger. rewrite !existsb_app.
  unfold createTrace. simpl. now rewrite orb_true_r.
Qed.

Lemma refresh_trigger_update O key exist n t :
  refresh_trigger (updateTrace O key exist
                   ++ Logged (FoundGuilds n key) :: t)%list = true.
Proof.
  unfold refresh_trigger. rewrite !existsb_app.
  unfold updateTrace. simpl. now rewrite orb_true_r.
Qed.

Lemma isCreateOf_createTrace O key event t :
  existsb (isCreateOf key (Event.timestamp event))
          (createTrace O key event ++ t)%list = true.
Proof.
  unfold createTrace. cbn [existsb app isCreateOf].
  now rewrite String.eqb_refl, Z.eqb_refl.
Qed.

Section Grace.

Variable getTitle : string -> Event.t -> string -> string.

Lemma tooRecent_helltide O event :
  tooRecent O Events.Helltide event = true <->
  (now O < Event.timestamp event * 1000 + 30 * 1000)%Z.
Proof.
  unfold tooRecent, duration.seconds. rewrite String.eqb_refl. simpl.
  apply Z.ltb_lt.
Qed.

Lemma tooRecent_other O key event :
  key <> Events.Helltide -> tooRecent O key event = false.
Proof.
  intros H. unfold tooRecent.
  apply String.eqb_neq in H. now rewrite H.
Qed.

Lemma tooOld_iff O event :
  tooOld O event = true <->
  (now O > Event.timestamp event * 1000 + 5 * 60 * 1000)%Z.
Proof.
  unfold tooOld, duration.minutes, duration.seconds.
  rewrite Z.gtb_lt. lia.
Qed.

(** C5, as the code has it.  An unseen Helltide whose timestamp is less
    than 30 seconds in the past leaves the tick with nothing but the log
    line of line 79: no record, no notification.  On a tick at which at
    least 30 seconds and at most 5 minutes have passed, the create is
    issued, the notify-trigger fires, and the record is in the table when
    the store accepts the create. *)
Theorem grace_period O event w :
  record Events.Helltide (Event.timestamp event) w = None ->
  ((now O < Event.timestamp event * 1000 + 30 * 1000)%Z ->
   refresh_event getTitle O Events.Helltide event w
   = (Ok tt, w, [Logged (TooRecent Events.Helltide)])) /\
  ((Event.timestamp event * 1000 + 30 * 1000 <= now O
    <= Event.timestamp event * 1000 + 5 * 60 * 1000)%Z ->
   existsb (isCreateOf Events.Helltide (Event.timestamp event))
     (trace_of (refresh_event getTitle O Events.Helltide event w)) = true /\
   notify_trigger
     (trace_of (refresh_event getTitle O Events.Helltide event w)) = true /\
   (createFails O = None ->
    exists n,
      record Events.Helltide (Event.timestamp event)
        (state_of (refresh_event getTitle O Events.Helltide event w)) = Some n /\
      Notification.refreshed n = false)).
Proof.
  intros H. split.
  - intros Hn. apply refresh_event_recent; [exact H|].
    now apply tooRecent_helltide.
  - intros Hn.
    assert (Hr : tooRecent O Events.Helltide event = false).
    { apply not_true_is_false. rewrite tooRecent_helltide. lia. }
    assert (Ho : tooOld O event = false).
    { apply not_true_is_false. rewrite tooOld_iff. lia. }
    destruct (refresh_event_notify getTitle O Events.Helltide event w H Hr Ho)
      as (w' & t & _ & F & E).
    rewrite E. unfold trace_of, state_of. cbn [fst snd].
    split; [|split].
    + apply isCreateOf_createTrace.
    + apply notify_trigger_create.
    + intros Hc. eexists. split.
      * now apply record_afterCreate.
      * reflexivity.
Qed.

End Grace.

(** A Helltide of second 1000 seen at second 1010, then at second 1040. *)
Lemma grace_period_witness :
  refresh_event Sample.title (Sample.at_ 1010000) Events.Helltide
                Sample.helltide Sample.empty
  = (Ok tt, Sample.empty, [Logged (TooRecent Events.Helltide)]) /\
  notify_trigger
    (trace_of (refresh_event Sample.title (Sample.at_ 1040000) Events.Helltide
                             Sample.helltide Sample.empty)) = true.
Proof.
  split.
  - apply (grace_period Sample.title (Sample.at_ 1010000) Sample.helltide
             Sample.empty); [reflexivity | simpl; lia].
  - apply (grace_period Sample.title (Sample.at_ 1040000) Sample.helltide
             Sample.empty); [reflexivity | simpl; lia].
Defined.

(** C5, as stated, fails.  A Helltide of second 1000 is seen at second
    1010 and left alone, inside its grace period.  The next tick that
    fetches it comes at second 1400: the grace period is over and the
    record is created, and yet no notification fires, because by then the
    occurrence is stale. *)
Lemma grace_elapsed_but_stale :
  refresh_event Sample.title (Sample.at_ 1010000) Events.Helltide
                Sample.helltide Sample.empty
  = (Ok tt, Sample.empty, [Logged (TooRecent Events.Helltide)]) /\
  (Event.timestamp Sample.helltide * 1000 + 30 * 1000
   <= now (Sample.at_ 1400000))%Z /\
  record Events.Helltide 1000
    (state_of (refresh_event Sample.title (Sample.at_ 1400000) Events.Helltide
                             Sample.helltide Sample.empty))
  = Some (Notification.mk 1 Events.Helltide Sample.helltide 1000 1600 false) /\
  notify_trigger
    (trace_of (refresh_event Sample.title (Sample.at_ 1400000) Events.Helltide
                             Sample.helltide Sample.empty)) = false /\
  existsb isBroadcast
    (trace_of (refresh_event Sample.title (Sample.at_ 1400000) Events.Helltide
                             Sample.helltide Sample.empty)) = false.
Proof.
  split; [reflexivity|]. split; [simpl; lia|].
  repeat split; reflexivity.
Qed.

Section Kinds.

Variable getTitle : string -> Event.t -> string -> string.

(** Whatever the unseen branch does once the create went through, the
    created row is what [findFirst] returns afterwards. *)
Lemma created_row_found O key event w :
  record key (Event.timestamp event) w = None ->
  tooRecent O key event = false ->
  createFails O = None ->
  record key (Event.timestamp event)
         (state_of (refresh_event getTitle O key event w))
  = Some (createdRow key event w).
Proof.
  intros H Hr Hc. destruct (tooOld O event) eqn:Ho.
  - rewrite (refresh_event_stale getTitle O key event w H Hr Ho).
    unfold state_of. cbn [fst snd].
    rewrite afterCreate_withTable. now apply record_afterCreate.
  - destruct (refresh_event_notify getTitle O key event w H Hr Ho)
      as (w' & t & _ & _ & E).
    rewrite E. unfold state_of. cbn [fst snd].
    now apply record_afterCreate.
Qed.

(** The unseen branch, past the grace rule, opens with the create. *)
Lemma create_comes_first O key event w :
  record key (Event.timestamp event) w = None ->
  tooRecent O key event = false ->
  hd_error (trace_of (refresh_event getTitle O key event w))
  = Some (Create key event (Event.timestamp event)
                 (refreshTimestampFor key event)).
Proof.
  intros H Hr. destruct (tooOld O event) eqn:Ho.
  - now rewrite (refresh_event_stale getTitle O key event w H Hr Ho).
  - destruct (refresh_event_notify getTitle O key event w H Hr Ho)
      as (w' & t & _ & _ & E).
    now rewrite E.
Qed.

(** C10. Only a Helltide waits out the 30-second grace period and has a
    refresh phase.  For any other key an unseen occurrence is created at
    once, whatever the clock says, with [refreshTimestamp = 0]; once that
    row is in the table every later processing of the occurrence is a
    no-op, so it never enters the refresh phase.  For a Helltide the
    create waits for the grace period and copies the event's [refresh]
    field into [refreshTimestamp]. *)
Theorem helltide_only O key event w :
  record key (Event.timestamp event) w = None ->
  (key <> Events.Helltide ->
   hd_error (trace_of (refresh_event getTitle O key event w))
   = Some (Create key event (Event.timestamp event) 0) /\
   (createFails O = None ->
    exists n,
      record key (Event.timestamp event)
             (state_of (refresh_event getTitle O key event w)) = Some n /\
      Notification.refreshTimestamp n = 0%Z /\
      forall ticks O' event',
        Event.timestamp event' = Event.timestamp event ->
        refresh_event getTitle O' key event'
          (state_of (run getTitle ticks
                       (state_of (refresh_event getTitle O key event w))))
        = (Ok tt,
           state_of (run getTitle ticks
                       (state_of (refresh_event getTitle O key event w))),
           []))) /\
  (key = Events.Helltide ->
   ((now O < Event.timestamp event * 1000 + 30 * 1000)%Z ->
    existsb isCreate (trace_of (refresh_event getTitle O key event w))
    = false) /\
   ((Event.timestamp event * 1000 + 30 * 1000 <= now O)%Z ->
    hd_error (trace_of (refresh_event getTitle O key event w))
    = Some (Create key event (Event.timestamp event) (Event.refresh event)) /\
    (createFails O = None ->
     exists n,
       record key (Event.timestamp event)
              (state_of (refresh_event getTitle O key event w)) = Some n /\
       Notification.refreshTimestamp n = Event.refresh event))).
Proof.
  intros H. split.
  - intros Hk. pose proof (tooRecent_other O key event Hk) as Hr.
    assert (Hz : refreshTimestampFor key event = 0%Z).
    { unfold refreshTimestampFor. apply String.eqb_neq in Hk. now rewrite Hk. }
    split.
    + rewrite <- Hz. now apply create_comes_first.
    + intros Hc.
      pose proof (created_row_found O key event w H Hr Hc) as Hrow.
      exists (createdRow key event w). split; [exact Hrow|]. split; [exact Hz|].
      intros ticks O' event' Hts.
      destruct (settled_forever getTitle key (Event.timestamp event) _
                  (createdRow key event w) ticks Hrow) as (n' & _ & _ & _ & Hn).
      * left. simpl. rewrite Hz. lia.
      * now apply Hn.
  - intros ->. split.
    + intros Hn.
      rewrite (refresh_event_recent getTitle O Events.Helltide event w H)
        by now apply tooRecent_helltide.
      reflexivity.
    + intros Hn.
      assert (Hr : tooRecent O Events.Helltide event = false).
      { apply not_true_is_false. rewrite tooRecent_helltide. lia. }
      split.
      * now apply create_comes_first.
      * intros Hc. exists (createdRow Events.Helltide event w).
        split; [now apply created_row_found |].
        unfold createdRow, refreshTimestampFor. simpl. reflexivity.
Qed.

End Kinds.

(** A world boss of second 1000 seen at second 1005 is created at once
    with no refresh phase; a Helltide seen at second 1040 keeps 1600. *)
Lemma helltide_only_witness :
  hd_error (trace_of (refresh_event Sample.title (Sample.at_ 1005000) "boss"
                                    Sample.boss Sample.empty))
  = Some (Create "boss" Sample.boss 1000 0) /\
  hd_error (trace_of (refresh_event Sample.title (Sample.at_ 1040000)
                                    Events.Helltide Sample.helltide
                                    Sample.empty))
  = Some (Create Events.Helltide Sample.helltide 1000 1600).
Proof.
  split.
  - destruct (helltide_only Sample.title (Sample.at_ 1005000) "boss"
                Sample.boss Sample.empty) as [Hother _]; [reflexivity|].
    apply Hother. unfold Events.Helltide. discriminate.
  - destruct (helltide_only Sample.title (Sample.at_ 1040000) Events.Helltide
                Sample.helltide Sample.empty) as [_ Hhell]; [reflexivity|].
    apply Hhell; [reflexivity | simpl; lia].
Defined.

Section Refresh.

Variable getTitle : string -> Event.t -> string -> string.

(** For a record whose refresh phase is ahead, the refresh-trigger fires
    exactly when the window test of line 113 lets control through. *)
Lemma refresh_trigger_is_due O key event w exist :
  record key (Event.timestamp event) w = Some exist ->
  (Notification.refreshTimestamp exist > 0)%Z ->
  Notification.refreshed exist = false ->
  refresh_trigger (trace_of (refresh_event getTitle O key event w))
  = refreshDue O exist.
Proof.
  intros H HR Hr. destruct (refreshDue O exist) eqn:Hd.
  - destruct (refresh_event_refreshing getTitle O key event w exist H HR Hr Hd)
      as (w' & t & _ & _ & E).
    rewrite E. apply refresh_trigger_update.
  - now rewrite (refresh_event_waiting getTitle O key event w exist H HR Hr Hd).
Qed.

Lemma refreshed_after O key event w exist :
  record key (Event.timestamp event) w = Some exist ->
  (Notification.refreshTimestamp exist > 0)%Z ->
  Notification.refreshed exist = false ->
  refreshDue O exist = true ->
  updateFails O = None ->
  record key (Event.timestamp event)
         (state_of (refresh_event getTitle O key event w))
  = Some (Notification.setRefreshed exist).
Proof.
  intros H HR Hr Hd Hu.
  destruct (refresh_event_refreshing getTitle O key event w exist H HR Hr Hd)
    as (w' & t & _ & _ & E).
  rewrite E. unfold state_of. cbn [fst snd].
  now apply record_afterUpdate.
Qed.

Lemma update_comes_first O key event w exist :
  record key (Event.timestamp event) w = Some exist ->
  (Notification.refreshTimestamp exist > 0)%Z ->
  Notification.refreshed exist = false ->
  refreshDue O exist = true ->
  exists t,
    trace_of (refresh_event getTitle O key event w)
    = Update (Notification.id exist) :: t.
Proof.
  intros H HR Hr Hd.
  destruct (refresh_event_refreshing getTitle O key event w exist H HR Hr Hd)
    as (w' & t & _ & _ & E).
  rewrite E. unfold trace_of, updateTrace. cbn [fst snd app]. eauto.
Qed.

(** C1, as the code has it.  For a record with [refreshTimestamp = R > 0]
    and [refreshed = false] of an occurrence with timestamp [T], the
    refresh-trigger fires on a tick iff the clock (in milliseconds) lies
    in [[T s, T s + 3600 s]] and is at least [R s].  When it fires and the
    store accepts the update, the record is refreshed from then on, after
    any number of further ticks, and processing the occurrence again does
    nothing. *)
Theorem refresh_window O key event w exist :
  record key (Event.timestamp event) w = Some exist ->
  (Notification.refreshTimestamp exist > 0)%Z ->
  Notification.refreshed exist = false ->
  (refresh_trigger (trace_of (refresh_event getTitle O key event w)) = true <->
   (Event.timestamp event * 1000 <= now O
      <= Event.timestamp event * 1000 + 3600 * 1000 /\
    Notification.refreshTimestamp exist * 1000 <= now O)%Z) /\
  (refresh_trigger (trace_of (refresh_event getTitle O key event w)) = true ->
   updateFails O = None ->
   forall ticks,
     (exists n,
        record key (Event.timestamp event)
          (state_of (run getTitle ticks
                       (state_of (refresh_event getTitle O key event w))))
        = Some n /\
        Notification.refreshed n = true) /\
     forall O' event',
       Event.timestamp event' = Event.timestamp event ->
       refresh_event getTitle O' key event'
         (state_of (run getTitle ticks
                      (state_of (refresh_event getTitle O key event w))))
       = (Ok tt,
          state_of (run getTitle ticks
                      (state_of (refresh_event getTitle O key event w))),
          [])).
Proof.
  intros H HR Hr.
  rewrite (refresh_trigger_is_due O key event w exist H HR Hr).
  destruct (record_sameOccurrence _ _ _ _ H) as [_ HT].
  split.
  - rewrite refreshDue_iff, HT. reflexivity.
  - intros Hd Hu ticks.
    pose proof (refreshed_after O key event w exist H HR Hr Hd Hu) as Hrow.
    destruct (settled_forever getTitle key (Event.timestamp event) _
                (Notification.setRefreshed exist) ticks Hrow)
      as (n' & Hn' & Hle & Hs & Hnoop).
    + right. reflexivity.
    + split; [|exact Hnoop].
      exists n'. split; [exact Hn'|].
      destruct Hle as (_ & _ & _ & _ & _ & Hmono). now apply Hmono.
Qed.

(** C9. When the refresh-trigger fires, the update of [refreshed] is the
    first thing the code does: every broadcast of that refresh comes
    after it in the trace.  So, when the store accepts the update, the
    occurrence is refreshed whatever the broadcaster answers, and no later
    tick fires the refresh or sends anything for it again. *)
Theorem refreshed_before_broadcast O key event w exist :
  record key (Event.timestamp event) w = Some exist ->
  (Notification.refreshTimestamp exist > 0)%Z ->
  Notification.refreshed exist = false ->
  refresh_trigger (trace_of (refresh_event getTitle O key event w)) = true ->
  hd_error (trace_of (refresh_event getTitle O key event w))
  = Some (Update (Notification.id exist)) /\
  (forall pre e post,
     trace_of (refresh_event getTitle O key event w) = (pre ++ e :: post)%list ->
     isBroadcast e = true -> existsb isUpdate pre = true) /\
  (updateFails O = None ->
   record key (Event.timestamp event)
          (state_of (refresh_event getTitle O key event w))
   = Some (Notification.setRefreshed exist) /\
   forall ticks O' event',
     Event.timestamp event' = Event.timestamp event ->
     trace_of (refresh_event getTitle O' key event'
                 (state_of (run getTitle ticks
                              (state_of (refresh_event getTitle O key event w)))))
     = []).
Proof.
  intros H HR Hr Hf.
  rewrite (refresh_trigger_is_due O key event w exist H HR Hr) in Hf.
  destruct (update_comes_first O key event w exist H HR Hr Hf) as (t & Et).
  split; [now rewrite Et|]. split.
  - intros pre e post E Hb. rewrite Et in E.
    destruct pre as [|a pre]; simpl in E; inversion E; subst.
    + discriminate.
    + reflexivity.
  - intros Hu.
    pose proof (refreshed_after O key event w exist H HR Hr Hf Hu) as Hrow.
    split; [exact Hrow|].
    intros ticks O' event' Hts.
    destruct (settled_forever getTitle key (Event.timestamp event) _
                (Notification.setRefreshed exist) ticks Hrow)
      as (n' & _ & _ & _ & Hnoop).
    + right. reflexivity.
    + now rewrite (Hnoop O' event' Hts).
Qed.

End Refresh.

(** The Helltide of second 1000, created, processed at second 1650. *)
Lemma refresh_window_witness :
  refresh_trigger
    (trace_of (refresh_event Sample.title (Sample.at_ 1650000) "helltide"
                             Sample.helltide Sample.created)) = true /\
  refresh_event Sample.title (Sample.at_ 1710000) "helltide" Sample.helltide
    (state_of (run Sample.title []
       (state_of (refresh_event Sample.title (Sample.at_ 1650000) "helltide"
                                Sample.helltide Sample.created))))
  = (Ok tt,
     state_of (run Sample.title []
       (state_of (refresh_event Sample.title (Sample.at_ 1650000) "helltide"
                                Sample.helltide Sample.created))),
     []).
Proof.
  destruct (refresh_window Sample.title (Sample.at_ 1650000) "helltide"
              Sample.helltide Sample.created
              (Notification.mk 1 "helltide" Sample.helltide 1000 1600 false))
    as [Hiff Hstay]; [reflexivity | simpl; lia | reflexivity |].
  assert (Hfire : refresh_trigger
    (trace_of (refresh_event Sample.title (Sample.at_ 1650000) "helltide"
                             Sample.helltide Sample.created)) = true).
  { apply Hiff. simpl. lia. }
  split; [exact Hfire|].
  apply (Hstay Hfire eq_refl []). reflexivity.
Defined.

(** C1, as stated, fails: when the database rejects the update, the
    refresh fires, the record stays unrefreshed, and the refresh fires
    again on the next tick. *)
Lemma refresh_fires_again_after_failed_update :
  refresh_trigger
    (trace_of (refresh_event Sample.title (Sample.rejectingUpdate 1650000)
                             "helltide" Sample.helltide Sample.created))
  = true /\
  record "helltide" 1000
    (state_of (refresh_event Sample.title (Sample.rejectingUpdate 1650000)
                             "helltide" Sample.helltide Sample.created))
  = Some (Notification.mk 1 "helltide" Sample.helltide 1000 1600 false) /\
  refresh_trigger
    (trace_of (refresh_event Sample.title (Sample.at_ 1710000)
                 "helltide" Sample.helltide
                 (state_of (refresh_event Sample.title
                              (Sample.rejectingUpdate 1650000)
                              "helltide" Sample.helltide Sample.created))))
  = true.
Proof. repeat split; vm_compute; reflexivity. Qed.

(** The same run, with a broadcaster whose every send fails. *)
Lemma refreshed_before_broadcast_witness :
  hd_error
    (trace_of (refresh_event Sample.title
                 (mkOracle 1650000 None None Sample.fails)
                 "helltide" Sample.helltide Sample.created))
  = Some (Update 1) /\
  trace_of (refresh_event Sample.title (Sample.at_ 1710000) "helltide"
              Sample.helltide
              (state_of (run Sample.title []
                 (state_of (refresh_event Sample.title
                              (mkOracle 1650000 None None Sample.fails)
                              "helltide" Sample.helltide Sample.created)))))
  = [].
Proof.
  destruct (refreshed_before_broadcast Sample.title
              (mkOracle 1650000 None None Sample.fails) "helltide"
              Sample.helltide Sample.created
              (Notification.mk 1 "helltide" Sample.helltide 1000 1600 false))
    as (Hhd & _ & Hstay);
    [reflexivity | simpl; lia | reflexivity | reflexivity |].
  split; [exact Hhd|].
  destruct (Hstay eq_refl) as [_ Hnoop].
  apply (Hnoop [] (Sample.at_ 1710000) Sample.helltide). reflexivity.
Defined.

Section CreateFailure.

Variable getTitle : string -> Event.t -> string -> string.

(** The dispatch asks the oracle for the broadcaster's answers only. *)
Lemma refresh_broadcast_withCreate c O key event w :
  refresh_broadcast getTitle (withCreate c O) key event w
  = refresh_broadcast getTitle O key event w.
Proof. reflexivity. Qed.

Lemma refresh_entries status_ok entries env w :
  status_ok = Some {| event_service := Some true |} ->
  refresh getTitle status_ok (Some entries) env w
  = (result_of (forEach entries (entry_body getTitle env) w),
     state_of (forEach entries (entry_body getTitle env) w),
     Logged Refreshing :: trace_of (forEach entries (entry_body getTitle env) w)).
Proof. intros ->. unfold refresh. now rewrite bind_log. Qed.

End CreateFailure.

(** ** At most one create per occurrence *)

Lemma creations_app key ts t1 t2 :
  creations key ts (t1 ++ t2) = (creations key ts t1 + creations key ts t2)%nat.
Proof. unfold creations. now rewrite filter_app, length_app. Qed.

Lemma creations_quiet key ts t :
  existsb isCreate t = false -> creations key ts t = 0%nat.
Proof.
  unfold creations. induction t as [|e t IH]; simpl; [reflexivity|].
  intros H. apply orb_false_iff in H as [He Ht].
  destruct e; simpl in *; try discriminate; auto.
Qed.

Lemma grows_seen key ts l l' :
  grows l l' ->
  find (sameOccurrence key ts) l <> None ->
  find (sameOccurrence key ts) l' <> None.
Proof.
  intros G H. destruct (find (sameOccurrence key ts) l) as [n|] eqn:E;
    [|congruence].
  destruct (grows_find key ts l l' n G E) as (n' & -> & _). discriminate.
Qed.

Section Once.

Variable getTitle : string -> Event.t -> string -> string.
Variable key : string.
Variable ts : Z.

Lemma once_quiet {A} (m : M A) :
  steady m ->
  (forall w, existsb isCreate (trace_of (m w)) = false) ->
  once key ts m.
Proof.
  intros Hs Hq w. destruct (Hs w) as (a & w' & t & E & G).
  exists a, w', t. specialize (Hq w). rewrite E in Hq. simpl in Hq.
  rewrite (creations_quiet key ts t Hq).
  repeat split; auto; lia.
Qed.

Lemma once_bind {A B} (m : M A) (f : A -> M B) :
  once key ts m -> (forall a, once key ts (f a)) -> once key ts (bind m f).
Proof.
  intros Hm Hf w.
  destruct (Hm w) as (a & w1 & t1 & E1 & G1 & S1 & L1 & C1).
  destruct (Hf a w1) as (b & w2 & t2 & E2 & G2 & S2 & L2 & C2).
  exists b, w2, (t1 ++ t2)%list.
  assert (K : record key ts w1 <> None -> record key ts w2 <> None)
    by (apply grows_seen; exact G2).
  assert (K0 : record key ts w <> None -> record key ts w1 <> None)
    by (apply grows_seen; exact G1).
  rewrite creations_app.
  split; [unfold bind; now rewrite E1, E2|].
  split; [eapply grows_trans; eauto|].
  split; [|split].
  - intros Hw. rewrite (S1 Hw), (S2 (K0 Hw)). reflexivity.
  - destruct (creations key ts t1) as [|[|n]] eqn:N1; [lia | | lia].
    rewrite (S2 (C1 eq_refl)). lia.
  - destruct (creations key ts t1) as [|[|n]] eqn:N1.
    + simpl. exact C2.
    + intros _. apply K, C1. reflexivity.
    + lia.
Qed.

Lemma once_forEach {A} (l : list A) (body : A -> M unit) :
  (forall x, In x l -> once key ts (body x)) -> once key ts (forEach l body).
Proof.
  induction l as [|x l IH]; intros H; simpl.
  - apply once_quiet; [apply steady_ret | reflexivity].
  - apply once_bind; [apply H; now left|].
    intros _. apply IH. intros y Hy. apply H. now right.
Qed.

(** The trace of one event holds a create only for an unseen occurrence,
    only as its first entry, and only for that occurrence. *)
Lemma refresh_event_creates O k event w :
  existsb isCreate (trace_of (refresh_event getTitle O k event w)) = false \/
  (record k (Event.timestamp event) w = None /\
   tooRecent O k event = false /\
   exists t,
     trace_of (refresh_event getTitle O k event w)
     = Create k event (Event.timestamp event) (refreshTimestampFor k event) :: t /\
     existsb isCreate t = false).
Proof.
  destruct (record k (Event.timestamp event) w) as [exist|] eqn:H.
  - left.
    destruct (Z_gt_le_dec (Notification.refreshTimestamp exist) 0) as [HR|HR];
      [destruct (Notification.refreshed exist) eqn:Hr|].
    + now rewrite (refresh_event_handled getTitle O k event w exist H (or_intror Hr)).
    + destruct (refreshDue O exist) eqn:Hd.
      * destruct (refresh_event_refreshing getTitle O k event w exist H HR Hr Hd)
          as (w' & t & _ & F & E).
        rewrite E. unfold trace_of. cbn [snd]. rewrite existsb_app.
        apply deliveryEffect_quiet in F as (F & _ & _).
        unfold updateTrace. destruct (updateFails O); simpl; exact F.
      * now rewrite (refresh_event_waiting getTitle O k event w exist H HR Hr Hd).
    + now rewrite (refresh_event_handled getTitle O k event w exist H (or_introl HR)).
  - destruct (tooRecent O k event) eqn:Hr.
    + left. now rewrite (refresh_event_recent getTitle O k event w H Hr).
    + right. split; [reflexivity|]. split; [reflexivity|].
      destruct (tooOld O event) eqn:Ho.
      * rewrite (refresh_event_stale getTitle O k event w H Hr Ho).
        unfold trace_of, createTrace. cbn [snd app]. eexists. split; [reflexivity|].
        destruct (createFails O); reflexivity.
      * destruct (refresh_event_notify getTitle O k event w H Hr Ho)
          as (w' & t & _ & F & E).
        rewrite E. unfold trace_of, createTrace. cbn [snd app].
        eexists. split; [reflexivity|].
        apply deliveryEffect_quiet in F as (F & _ & _).
        rewrite existsb_app. destruct (createFails O); simpl; exact F.
Qed.

Lemma once_refresh_event O k event :
  (k = key -> createFails O = None) ->
  once key ts (refresh_event getTitle O k event).
Proof.
  intros Hc w.
  destruct (steady_refresh_event getTitle O k event w) as (a & w' & t & E & G).
  exists a, w', t. split; [exact E|]. split; [exact G|].
  destruct (refresh_event_creates O k event w) as [Q|(H & Hr & t' & Et & Q)].
  - rewrite E in Q. simpl in Q. rewrite (creations_quiet key ts t Q).
    repeat split; auto; lia.
  - rewrite E in Et. simpl in Et. subst t.
    change (Create k event (Event.timestamp event) (refreshTimestampFor k event)
            :: t')
      with ([Create k event (Event.timestamp event)
                    (refreshTimestampFor k event)] ++ t')%list.
    rewrite creations_app, (creations_quiet key ts t' Q), Nat.add_0_r.
    unfold creations. cbn [filter isCreateOf].
    destruct ((k =? key) && (Event.timestamp event =? ts)%Z) eqn:Hk; simpl.
    + apply andb_true_iff in Hk as [Hk1 Hk2].
      apply String.eqb_eq in Hk1. apply Z.eqb_eq in Hk2. subst k ts.
      split; [intros Hw; congruence|]. split; [lia|]. intros _.
      pose proof (created_row_found getTitle O key event w H Hr (Hc eq_refl))
        as Hrow.
      rewrite E in Hrow. unfold state_of in Hrow. simpl in Hrow.
      rewrite Hrow. discriminate.
    + repeat split; auto; lia.
Qed.

Lemma once_refresh status events env :
  createFails (env key) = None ->
  once key ts (refresh getTitle status events env).
Proof.
  intros Hc. unfold refresh.
  apply once_bind; [apply once_quiet; [apply steady_log | reflexivity]|].
  intros _.
  destruct status as [[[[|]|]]|];
    try (apply once_quiet; [apply steady_log | reflexivity]).
  destruct events as [entries|];
    [|apply once_quiet; [apply steady_log | reflexivity]].
  apply once_forEach. intros [k event] _. cbn [fst snd].
  apply once_refresh_event. now intros ->.
Qed.

Lemma once_run ticks :
  (forall t, In t ticks -> createFails (env t key) = None) ->
  once key ts (run getTitle ticks).
Proof.
  intros Hc. unfold run. apply once_forEach.
  intros t Ht. apply once_refresh. now apply Hc.
Qed.

End Once.

(** ** The dispatch to one setting *)

Lemma refresh_setting_run O key g message setting channelId w :
  Setting.channelId setting = Some channelId ->
  channelId <> EmptyString ->
  refresh_setting O key g message setting w
  = match respond O (calls w) channelId (addMention message setting)
                  (Setting.messageId setting) with
    | Some (first :: _) =>
        (Ok (addMention message setting),
         state_of (updateEventMessageId (Guild.guildId g) key channelId first
                     (mkWorld (notification w) (guild w) (S (calls w)))),
         [Logged (Enabled key (Guild.id g));
          Broadcast channelId (addMention message setting)
                    (Setting.messageId setting);
          UpdateEventMessageId (Guild.guildId g) key channelId first])
    | _ =>
        (Ok (addMention message setting),
         mkWorld (notification w) (guild w) (S (calls w)),
         [Logged (Enabled key (Guild.id g));
          Broadcast channelId (addMention message setting)
                    (Setting.messageId setting)])
    end.
Proof.
  intros Hc Hne. unfold refresh_setting. rewrite bind_log, Hc.
  apply String.eqb_neq in Hne. unfold truthy. rewrite Hne. cbn [negb].
  unfold bind, broadcast, updateEventMessageId, ret, result_of, state_of,
    trace_of.
  destruct (respond O (calls w) channelId (addMention message setting)
                    (Setting.messageId setting)) as [[|first rest]|];
    reflexivity.
Qed.

Lemma addressed_writeBack key channelId id s :
  addressed key channelId (writeBack key channelId id s)
  = addressed key channelId s.
Proof.
  unfold writeBack. fold (addressed key channelId s).
  destruct (addressed key channelId s) eqn:E; [|exact E].
  unfold addressed, forType in *. exact E.
Qed.

Lemma messageId_writeBack key channelId id s :
  addressed key channelId s = true ->
  Setting.messageId (writeBack key channelId id s) = Some id.
Proof.
  intros H. unfold writeBack. fold (addressed key channelId s).
  now rewrite H.
Qed.

Lemma stored_after_writeBack key channelId id l :
  map Setting.messageId
      (filter (addressed key channelId) (map (writeBack key channelId id) l))
  = map (fun _ => Some id)
        (map Setting.messageId (filter (addressed key channelId) l)).
Proof.
  induction l as [|s l IH]; simpl; [reflexivity|].
  rewrite addressed_writeBack.
  destruct (addressed key channelId s) eqn:E; simpl.
  - now rewrite IH, messageId_writeBack.
  - exact IH.
Qed.

Lemma storedMessageIds_updated guildId key channelId id w :
  storedMessageIds guildId key channelId
    (state_of (updateEventMessageId guildId key channelId (Some id) w))
  = map (fun _ => Some id) (storedMessageIds guildId key channelId w).
Proof.
  unfold storedMessageIds, updateEventMessageId, state_of. cbn [fst snd guild].
  induction (guild w) as [|g l IH]; simpl; [reflexivity|].
  rewrite map_app, <- IH.
  destruct (Guild.guildId g =? guildId) eqn:E; simpl.
  - rewrite E. now rewrite stored_after_writeBack.
  - rewrite E. reflexivity.
Qed.

Lemma storedMessageIds_holds guildId key channelId w g setting :
  In g (guild w) ->
  Guild.guildId g = guildId ->
  In setting (Guild.events g) ->
  addressed key channelId setting = true ->
  In (Setting.messageId setting) (storedMessageIds guildId key channelId w).
Proof.
  intros Hg Hid Hs Ha. unfold storedMessageIds.
  apply in_flat_map. exists g. split; [exact Hg|].
  apply String.eqb_eq in Hid. rewrite Hid.
  apply in_map. apply filter_In. auto.
Qed.

(** C3 fails on the code.  The sample guild has two Helltide settings,
    with roles [r1] and [r2].  The message object is built once per guild
    (line 141) and line 154 appends to its content in place, so the
    message sent for the second setting carries both mention suffixes;
    only [allowedMentions], which line 155 assigns anew, names the single
    role of the setting. *)
Theorem mention_suffixes_accumulate :
  filter isBroadcast
    (trace_of (refresh_guild Sample.title (Sample.at_ 1040000) "helltide"
                             Sample.helltide Sample.guild1 Sample.empty))
  = [Broadcast "c1"
       (Message.mk "helltide - <@&r1>" [("helltide", Sample.helltide)]
                   (Some ["r1"]))
       None;
     Broadcast "c2"
       (Message.mk "helltide - <@&r1> - <@&r2>" [("helltide", Sample.helltide)]
                   (Some ["r2"]))
       None].
Proof. reflexivity. Qed.

(** * Further properties of the tick *)

(** ** Traces of composed actions *)

Lemma in_trace_bind {A B} (m : M A) (f : A -> M B) w e :
  In e (trace_of (bind m f w)) ->
  In e (trace_of (m w)) \/
  exists a, result_of (m w) = Ok a /\ In e (trace_of (f a (state_of (m w)))).
Proof.
  unfold bind, trace_of, state_of, result_of.
  destruct (m w) as [[[a|msg] w1] t1]; simpl.
  - destruct (f a w1) as [[r w2] t2] eqn:E. simpl. intros H.
    apply in_app_or in H as [H|H]; [now left|].
    right. exists a. rewrite E. auto.
  - now left.
Qed.

Lemma in_trace_forEach {A} (l : list A) (body : A -> M unit) w e :
  In e (trace_of (forEach l body w)) ->
  exists x w', In x l /\ In e (trace_of (body x w')).
Proof.
  revert w. induction l as [|x l IH]; intros w H; simpl in H.
  - destruct H.
  - apply in_trace_bind in H as [H|(a & _ & H)].
    + exists x, w. split; [now left | exact H].
    + destruct (IH _ H) as (y & w' & Hy & He).
      exists y, w'. split; [now right | exact He].
Qed.

(** ** One record per occurrence *)

Lemma keeps_ret I {A} (a : A) : keeps I (ret a).
Proof. intros w H. exact H. Qed.

Lemma keeps_log I l : keeps I (log l).
Proof. intros w H. exact H. Qed.

Lemma keeps_bind I {A B} (m : M A) (f : A -> M B) :
  keeps I m -> (forall a, keeps I (f a)) -> keeps I (bind m f).
Proof.
  intros Hm Hf w H. specialize (Hm w H). unfold bind, state_of in *.
  destruct (m w) as [[[a|msg] w1] t1]; simpl in *.
  - specialize (Hf a w1 Hm). unfold state_of in Hf.
    destruct (f a w1) as [[r w2] t2]. exact Hf.
  - exact Hm.
Qed.

Lemma keeps_forEach I {A} (l : list A) (body : A -> M unit) :
  (forall x, keeps I (body x)) -> keeps I (forEach l body).
Proof.
  intros H. induction l as [|x l IH]; simpl.
  - apply keeps_ret.
  - apply keeps_bind; auto.
Qed.

Lemma find_none_not_in key ts l :
  find (sameOccurrence key ts) l = None ->
  ~ In (key, ts) (map occurrenceOf l).
Proof.
  intros H Hin. apply in_map_iff in Hin as (n & Hn & Hin).
  pose proof (find_none _ _ H n Hin) as Hf.
  unfold occurrenceOf in Hn. inversion Hn; subst.
  unfold sameOccurrence in Hf.
  now rewrite String.eqb_refl, Z.eqb_refl in Hf.
Qed.

Lemma distinct_after_create key event w :
  record key (Event.timestamp event) w = None ->
  distinctOccurrences (notification w) ->
  distinctOccurrences (notification w ++ [createdRow key event w]).
Proof.
  intros H D. unfold distinctOccurrences in *. rewrite map_app. simpl.
  apply NoDup_app; [exact D | repeat constructor; intros [] |].
  intros k Hk [<-|[]].
  revert Hk. apply find_none_not_in. exact H.
Qed.

Lemma distinct_after_update id l :
  distinctOccurrences l ->
  distinctOccurrences
    (map (fun n => if (Notification.id n =? id)%Z
                   then Notification.setRefreshed n else n) l).
Proof.
  unfold distinctOccurrences. rewrite map_map.
  erewrite map_ext; [intros D; exact D|].
  intros n. simpl. destruct (Notification.id n =? id)%Z; reflexivity.
Qed.

Section Occurrences.

Variable getTitle : string -> Event.t -> string -> string.

(** The table after one event is the table before, or that with the
    created row appended for an occurrence that had none, or that with
    [refreshed] set on the rows of one id. *)
Lemma refresh_event_table O key event w :
  notification (state_of (refresh_event getTitle O key event w))
    = notification w \/
  (record key (Event.timestamp event) w = None /\
   notification (state_of (refresh_event getTitle O key event w))
     = (notification w ++ [createdRow key event w])%list) \/
  exists id,
    notification (state_of (refresh_event getTitle O key event w))
    = map (fun n => if (Notification.id n =? id)%Z
                    then Notification.setRefreshed n else n)
          (notification w).
Proof.
  destruct (record key (Event.timestamp event) w) as [exist|] eqn:H.
  - destruct (Z_gt_le_dec (Notification.refreshTimestamp exist) 0) as [HR|HR];
      [destruct (Notification.refreshed exist) eqn:Hr|].
    + left.
      now rewrite (refresh_event_handled getTitle O key event w exist H
                     (or_intror Hr)).
    + destruct (refreshDue O exist) eqn:Hd.
      * destruct (refresh_event_refreshing getTitle O key event w exist
                    H HR Hr Hd) as (w' & t & _ & _ & E).
        rewrite E. unfold state_of, afterUpdate. cbn [fst snd].
        destruct (updateFails O); [now left|].
        right. right. exists (Notification.id exist). reflexivity.
      * left.
        now rewrite (refresh_event_waiting getTitle O key event w exist
                       H HR Hr Hd).
    + left.
      now rewrite (refresh_event_handled getTitle O key event w exist H
                     (or_introl HR)).
  - destruct (tooRecent O key event) eqn:Hr.
    + left. now rewrite (refresh_event_recent getTitle O key event w H Hr).
    + assert (C : notification (afterCreate O key event w) = notification w \/
                  notification (afterCreate O key event w)
                  = (notification w ++ [createdRow key event w])%list).
      { unfold afterCreate. destruct (createFails O); [now left | now right]. }
      destruct (tooOld O event) eqn:Ho.
      * rewrite (refresh_event_stale getTitle O key event w H Hr Ho).
        unfold state_of. cbn [fst snd].
        destruct C as [C|C]; [now left | right; left; now split].
      * destruct (refresh_event_notify getTitle O key event w H Hr Ho)
          as (w' & t & _ & _ & E).
        rewrite E. unfold state_of. cbn [fst snd notification withTable].
        destruct C as [C|C]; [now left | right; left; now split].
Qed.

Lemma keeps_distinct_refresh_event O key event :
  keeps distinctOccurrences (refresh_event getTitle O key event).
Proof.
  intros w D.
  destruct (refresh_event_table O key event w) as [E|[[H E]|[id E]]];
    rewrite E.
  - exact D.
  - now apply distinct_after_create.
  - now apply distinct_after_update.
Qed.

(** X2. The guard of lines 70-72 keeps one record per occurrence: when no
    two rows of the table share type and timestamp, no run of ticks
    makes two rows share them, whether or not the database accepts the
    writes. *)
Theorem one_record_per_occurrence ticks w :
  distinctOccurrences (notification w) ->
  distinctOccurrences (notification (state_of (run getTitle ticks w))).
Proof.
  revert w. change (keeps distinctOccurrences (run getTitle ticks)).
  unfold run. apply keeps_forEach. intros t. unfold refresh.
  apply keeps_bind; [apply keeps_log|]. intros _.
  destruct (status t) as [[[[|]|]]|]; try apply keeps_log.
  destruct (events t) as [entries|]; [|apply keeps_log].
  apply keeps_forEach. intros entry. apply keeps_distinct_refresh_event.
Qed.

End Occurrences.

Lemma existsb_false_in {A} (f : A -> bool) l x :
  existsb f l = false -> In x l -> f x = false.
Proof.
  induction l as [|a l IH]; simpl; [intros _ []|].
  intros H [<-|Hin]; apply orb_false_iff in H as [Ha Hl]; auto.
Qed.

(** ** Whole ticks *)

Section Ticks.

Variable getTitle : string -> Event.t -> string -> string.

Lemma forEach_settled entries env w :
  (forall key event, In (key, event) entries ->
     exists n, record key (Event.timestamp event) w = Some n /\ settled n) ->
  forEach entries (entry_body getTitle env) w = (Ok tt, w, []).
Proof.
  induction entries as [|[key event] entries IH]; intros H; simpl.
  - reflexivity.
  - destruct (H key event (or_introl eq_refl)) as (n & Hn & Hs).
    assert (E : entry_body getTitle env (key, event) w = (Ok tt, w, [])).
    { unfold entry_body. cbn [fst snd].
      eapply refresh_event_handled; eauto. }
    rewrite (bind_ok _ _ _ _ _ _ E).
    rewrite IH; [reflexivity|].
    intros k e Hin. apply H. now right.
Qed.

(** X3. A tick at rest: when the source is available and every fetched
    occurrence has a record that is refreshed or has no refresh phase,
    the tick logs that it refreshes and does nothing else, whatever the
    clock, the database and the broadcaster would answer. *)
Theorem settled_tick_is_silent entries env w :
  (forall key event, In (key, event) entries ->
     exists n, record key (Event.timestamp event) w = Some n /\ settled n) ->
  refresh getTitle (Some {| event_service := Some true |}) (Some entries) env w
  = (Ok tt, w, [Logged Refreshing]).
Proof.
  intros H. rewrite (refresh_entries getTitle _ entries env w eq_refl).
  now rewrite (forEach_settled entries env w H).
Qed.

(** X4. A tick creates records for fetched occurrences only: every create
    it issues is for an entry of the fetched events, with that entry's
    key, the entry itself as data, its timestamp, and the refresh
    timestamp of line 83. *)
Theorem creates_only_for_fetched status_ entries env w key data ts rts :
  In (Create key data ts rts)
     (trace_of (refresh getTitle status_ (Some entries) env w)) ->
  In (key, data) entries /\
  ts = Event.timestamp data /\
  rts = refreshTimestampFor key data.
Proof.
  unfold refresh. intros H.
  apply in_trace_bind in H as [H|(_ & _ & H)].
  - destruct H as [H|[]]. discriminate.
  - destruct status_ as [[[[|]|]]|];
      try (destruct H as [H|[]]; discriminate).
    apply in_trace_forEach in H as ([k event] & w' & Hin & H).
    unfold entry_body in H. cbn [fst snd] in H.
    destruct (refresh_event_creates getTitle (env k) k event w')
      as [Q|(_ & _ & t & Et & Q)].
    + exfalso. pose proof (existsb_false_in _ _ _ Q H). discriminate.
    + rewrite Et in H. destruct H as [H|H].
      * inversion H; subst. auto.
      * exfalso. pose proof (existsb_false_in _ _ _ Q H). discriminate.
Qed.

(** X5. A kind other than Helltide is notified as soon as it is fetched:
    for an unseen occurrence of another key, not stale, the create is
    issued and the notify-trigger fires whatever else the clock says, also
    before the occurrence has started. *)
Theorem other_kinds_notify_at_once O key event w :
  key <> Events.Helltide ->
  record key (Event.timestamp event) w = None ->
  (now O <= Event.timestamp event * 1000 + 5 * 60 * 1000)%Z ->
  hd_error (trace_of (refresh_event getTitle O key event w))
  = Some (Create key event (Event.timestamp event) 0) /\
  notify_trigger (trace_of (refresh_event getTitle O key event w)) = true.
Proof.
  intros Hk H Hn.
  pose proof (tooRecent_other O key event Hk) as Hr.
  assert (Ho : tooOld O event = false).
  { apply not_true_is_false. rewrite tooOld_iff. lia. }
  assert (Hz : refreshTimestampFor key event = 0%Z).
  { unfold refreshTimestampFor. apply String.eqb_neq in Hk. now rewrite Hk. }
  split.
  - rewrite <- Hz. now apply create_comes_first.
  - destruct (refresh_event_notify getTitle O key event w H Hr Ho)
      as (w' & t & _ & _ & E).
    rewrite E. apply notify_trigger_create.
Qed.

(** X6. A refresh timestamp later than one hour after the start is never
    honoured: for such a record, at every clock reading, the step only
    logs that the event is not ready; it updates nothing and sends
    nothing. *)
Theorem refresh_beyond_window_never_fires O key event w exist :
  record key (Event.timestamp event) w = Some exist ->
  Notification.refreshed exist = false ->
  (Notification.refreshTimestamp exist > 0)%Z ->
  (Notification.refreshTimestamp exist > Event.timestamp event + 3600)%Z ->
  refresh_event getTitle O key event w = (Ok tt, w, [Logged (NotReady key)]).
Proof.
  intros H Hr HR Hlate.
  destruct (record_sameOccurrence _ _ _ _ H) as [_ HT].
  apply refresh_event_waiting with (exist := exist); auto.
  apply not_true_is_false. rewrite refreshDue_iff, HT. lia.
Qed.

End Ticks.

(** ** The loop over the settings of a guild *)

Lemma broadcastTargets_app t1 t2 :
  broadcastTargets (t1 ++ t2) = (broadcastTargets t1 ++ broadcastTargets t2)%list.
Proof. unfold broadcastTargets. apply flat_map_app. Qed.

(** The two ways through lines 150-183. *)
Lemma refresh_setting_cases O key g message setting w :
  (targetOf setting = [] /\
   refresh_setting O key g message setting w
   = (Ok (addMention message setting), w,
      [Logged (Enabled key (Guild.id g)); Logged (NoChannel key)])) \/
  (exists channelId,
     Setting.channelId setting = Some channelId /\
     channelId <> EmptyString /\
     targetOf setting = [(channelId, Setting.messageId setting)] /\
     exists w' rest,
       refresh_setting O key g message setting w
       = (Ok (addMention message setting), w',
          Logged (Enabled key (Guild.id g))
          :: Broadcast channelId (addMention message setting)
                       (Setting.messageId setting)
          :: rest) /\
       (rest = [] \/
        exists id, rest = [UpdateEventMessageId (Guild.guildId g) key
                                                channelId id])).
Proof.
  destruct (Setting.channelId setting) as [c|] eqn:Hc.
  - destruct (String.eqb_spec c EmptyString) as [->|Hne].
    + left. unfold targetOf, refresh_setting. rewrite Hc.
      split; [reflexivity|]. now rewrite bind_log.
    + right. exists c. split; [reflexivity|]. split; [exact Hne|].
      split.
      { unfold targetOf. rewrite Hc. unfold truthy.
        apply String.eqb_neq in Hne. now rewrite Hne. }
      rewrite (refresh_setting_run O key g message setting c w Hc Hne).
      destruct (respond O (calls w) c (addMention message setting)
                        (Setting.messageId setting)) as [[|first rest]|];
        eexists _, _; (split; [reflexivity|]); eauto.
  - left. unfold targetOf, refresh_setting. rewrite Hc.
    split; [reflexivity|]. now rewrite bind_log.
Qed.

Lemma settings_loop_targets O key g l : forall message w,
  broadcastTargets
    (trace_of (forEachWith l (refresh_setting O key g) message w))
  = flat_map targetOf l.
Proof.
  induction l as [|s l IH]; intros message w; [reflexivity|].
  cbn [forEachWith flat_map].
  destruct (refresh_setting_cases O key g message s w)
    as [[T E]|(c & _ & _ & T & w' & rest & E & R)];
    rewrite (bind_ok _ _ _ _ _ _ E); unfold trace_of at 1; cbn [fst snd];
    rewrite broadcastTargets_app, IH, T; [reflexivity|].
  destruct R as [->|[id ->]]; reflexivity.
Qed.

(** Whatever the loop emits, it emits while it handles one setting, with
    the message as the settings before that one left it. *)
Lemma settings_loop_in O key g l e : forall message w,
  In e (trace_of (forEachWith l (refresh_setting O key g) message w)) ->
  exists l1 s l2 w',
    l = (l1 ++ s :: l2)%list /\
    In e (trace_of (refresh_setting O key g (fold_left addMention l1 message)
                                    s w')).
Proof.
  induction l as [|s l IH]; intros message w H; [destruct H|].
  cbn [forEachWith] in H.
  assert (V : exists w1 t1, refresh_setting O key g message s w
                            = (Ok (addMention message s), w1, t1)).
  { destruct (refresh_setting_cases O key g message s w)
      as [[_ E]|(c & _ & _ & _ & w' & rest & E & _)]; eauto. }
  destruct V as (w1 & t1 & E).
  rewrite (bind_ok _ _ _ _ _ _ E) in H. unfold trace_of at 1 in H.
  cbn [fst snd] in H. apply in_app_or in H as [H|H].
  - exists [], s, l, w. split; [reflexivity|]. cbn [fold_left]. rewrite E.
    exact H.
  - destruct (IH _ _ H) as (l1 & s' & l2 & w' & -> & He).
    exists (s :: l1), s', l2, w'. split; [reflexivity | exact He].
Qed.

(** The broadcast for a setting with a channel is in the loop's trace,
    with the message as all settings up to it made it. *)
Lemma settings_loop_sends O key g l1 s l2 c : forall message w,
  Setting.channelId s = Some c ->
  c <> EmptyString ->
  In (Broadcast c (fold_left addMention (l1 ++ [s]) message)
                (Setting.messageId s))
     (trace_of (forEachWith (l1 ++ s :: l2) (refresh_setting O key g)
                            message w)).
Proof.
  induction l1 as [|a l1 IH]; intros message w Hc Hne.
  - cbn [app forEachWith fold_left].
    pose proof (refresh_setting_run O key g message s c w Hc Hne) as E.
    assert (V : exists w1 t1,
               refresh_setting O key g message s w
               = (Ok (addMention message s), w1, t1) /\
               In (Broadcast c (addMention message s) (Setting.messageId s)) t1).
    { rewrite E.
      destruct (respond O (calls w) c (addMention message s)
                        (Setting.messageId s)) as [[|first rest]|];
        eexists _, _; (split; [reflexivity|]); simpl; auto. }
    destruct V as (w1 & t1 & E1 & Hin).
    rewrite (bind_ok _ _ _ _ _ _ E1). unfold trace_of at 1. cbn [fst snd].
    apply in_or_app. now left.
  - cbn [app forEachWith fold_left].
    assert (V : exists w1 t1, refresh_setting O key g message a w
                              = (Ok (addMention message a), w1, t1)).
    { destruct (refresh_setting_cases O key g message a w)
        as [[_ E]|(c' & _ & _ & _ & w' & rest & E & _)]; eauto. }
    destruct V as (w1 & t1 & E).
    rewrite (bind_ok _ _ _ _ _ _ E). unfold trace_of at 1. cbn [fst snd].
    apply in_or_app. right. now apply IH.
Qed.

Section Guilds.

Variable getTitle : string -> Event.t -> string -> string.

(** Lines 136-184 as a trace: the line that names the guild, then the
    loop over its settings for the key. *)
Lemma refresh_guild_trace O key event g w :
  trace_of (refresh_guild getTitle O key event g w)
  = Logged (CheckingGuild (Guild.id g))
    :: trace_of (forEachWith (filter (forType key) (Guild.events g))
                   (refresh_setting O key g)
                   (Message.mk (getTitle key event (Guild.locale g))
                               [(key, event)] None)
                   w).
Proof.
  unfold refresh_guild. rewrite bind_log. unfold trace_of at 1. cbn [fst snd].
  f_equal.
  destruct (filter (forType key) (Guild.events g)) as [|s l] eqn:F.
  - reflexivity.
  - cbn [List.length Nat.eqb].
    unfold bind at 1, trace_of.
    destruct (forEachWith (s :: l) _ _ w) as [[[m|msg] w1] t1]; simpl.
    + now rewrite app_nil_r.
    + reflexivity.
Qed.

End Guilds.

(** ** What the dispatch sends *)

Lemma append_empty_r (s : string) : s ++ EmptyString = s.
Proof. induction s as [|a s IH]; simpl; [reflexivity | now rewrite IH]. Qed.

Lemma append_assoc' (a b c : string) : (a ++ b) ++ c = a ++ (b ++ c).
Proof. induction a as [|x a IH]; simpl; [reflexivity | now rewrite IH]. Qed.

Lemma content_addMention m s :
  Message.content (addMention m s) = Message.content m ++ mentionSuffix s.
Proof.
  unfold addMention, mentionSuffix.
  destruct (Setting.roleId s) as [role|]; [|now rewrite append_empty_r].
  destruct (truthy (Some role)); [reflexivity | now rewrite append_empty_r].
Qed.

Lemma content_fold_addMention l : forall m,
  Message.content (fold_left addMention l m)
  = Message.content m ++ fold_right append EmptyString (map mentionSuffix l).
Proof.
  induction l as [|s l IH]; intros m; simpl.
  - now rewrite append_empty_r.
  - now rewrite IH, content_addMention, append_assoc'.
Qed.

Lemma wellMentioned_addMention title key event g m s :
  In s (Guild.events g) ->
  Setting.type s = key ->
  wellMentioned title key event g m ->
  wellMentioned title key event g (addMention m s).
Proof.
  intros Hs Ht (He & (tail & Hc) & Ha). unfold addMention.
  destruct (Setting.roleId s) as [role|] eqn:Hr; [|repeat split; eauto].
  destruct (truthy (Some role)); [|repeat split; eauto].
  split; [exact He|]. split.
  - exists (tail ++ " - <@&" ++ role ++ ">"). simpl.
    now rewrite Hc, append_assoc'.
  - right. exists s, role. auto.
Qed.

Lemma wellMentioned_fold title key event g l : forall m,
  (forall s, In s l -> In s (Guild.events g) /\ Setting.type s = key) ->
  wellMentioned title key event g m ->
  wellMentioned title key event g (fold_left addMention l m).
Proof.
  induction l as [|s l IH]; intros m H W; simpl; [exact W|].
  apply IH; [intros s' Hs'; apply H; now right|].
  destruct (H s (or_introl eq_refl)) as [Hs Ht].
  now apply wellMentioned_addMention.
Qed.

Lemma filter_forType key g s :
  In s (filter (forType key) (Guild.events g)) ->
  In s (Guild.events g) /\ Setting.type s = key.
Proof.
  intros H. apply filter_In in H as [H1 H2]. split; [exact H1|].
  now apply String.eqb_eq.
Qed.

Section Sent.

Variable getTitle : string -> Event.t -> string -> string.

Lemma refresh_broadcast_unfold O key event w :
  refresh_broadcast getTitle O key event w
  = (result_of (refresh_guilds getTitle O key event (subscribers key w) w),
     state_of (refresh_guilds getTitle O key event (subscribers key w) w),
     Logged (FoundGuilds (List.length (subscribers key w)) key)
     :: trace_of (refresh_guilds getTitle O key event (subscribers key w) w)).
Proof.
  unfold refresh_broadcast. unfold bind at 1. unfold getAllByEvent.
  rewrite bind_log.
  destruct (refresh_guilds getTitle O key event (subscribers key w) w)
    as [[r w2] t2].
  reflexivity.
Qed.

Lemma guilds_loop_targets O key event guilds : forall w,
  broadcastTargets
    (trace_of (forEach guilds (refresh_guild getTitle O key event) w))
  = flat_map (targetsOf key) guilds.
Proof.
  induction guilds as [|g guilds IH]; intros w; [reflexivity|].
  cbn [forEach flat_map].
  destruct (delivery_refresh_guild getTitle O key event g w)
    as ([] & w1 & t1 & E & _).
  pose proof (refresh_guild_trace getTitle O key event g w) as T.
  rewrite E in T. unfold trace_of at 1 in T. cbn [fst snd] in T.
  rewrite (bind_ok _ _ _ _ _ _ E). unfold trace_of at 1. cbn [fst snd].
  rewrite broadcastTargets_app, IH. f_equal.
  rewrite T. unfold targetsOf.
  rewrite <- (settings_loop_targets O key g _
                (Message.mk (getTitle key event (Guild.locale g))
                            [(key, event)] None) w).
  reflexivity.
Qed.

(** The targets of the broadcasts of a dispatch are those of the fetched
    subscribers' settings. *)
Lemma refresh_broadcast_targets O key event w :
  broadcastTargets (trace_of (refresh_broadcast getTitle O key event w))
  = flat_map (targetsOf key) (subscribers key w).
Proof.
  rewrite refresh_broadcast_unfold. unfold trace_of at 1. cbn [fst snd].
  change (broadcastTargets (Logged ?l :: ?t)) with (broadcastTargets t).
  unfold refresh_guilds.
  destruct (delivery_forEach (subscribers key w)
              (refresh_guild getTitle O key event)
              (delivery_refresh_guild getTitle O key event) w)
    as ([] & w1 & t1 & E & _).
  pose proof (guilds_loop_targets O key event (subscribers key w) w) as T.
  rewrite E in T. unfold trace_of in T. cbn [fst snd] in T.
  rewrite (bind_ok _ _ _ _ _ _ E). unfold trace_of. cbn [fst snd log emit].
  rewrite broadcastTargets_app, T. simpl. now rewrite app_nil_r.
Qed.

(** X7. Which channels the dispatch sends to, and with which prior
    message id, is fixed by the subscribers as they are fetched on line
    132: in the order of the guilds and of their settings, one broadcast
    for every setting for the key that names a channel, with that
    setting's channel and stored message id.  It does not depend on what
    the broadcaster answers, so a failed delivery stops no later one, and
    a write-back made on the way changes no later broadcast of the same
    dispatch. *)
Theorem dispatch_targets O key event w :
  broadcastTargets (trace_of (refresh_broadcast getTitle O key event w))
  = flat_map (targetsOf key) (subscribers key w).
Proof. apply refresh_broadcast_targets. Qed.

(** What the loop over a guild's settings broadcasts. *)
Lemma guild_broadcast_origin O key event g w c msg i :
  In (Broadcast c msg i) (trace_of (refresh_guild getTitle O key event g w)) ->
  exists l1 s l2,
    filter (forType key) (Guild.events g) = (l1 ++ s :: l2)%list /\
    Setting.channelId s = Some c /\
    c <> EmptyString /\
    i = Setting.messageId s /\
    msg = fold_left addMention (l1 ++ [s])
            (Message.mk (getTitle key event (Guild.locale g))
                        [(key, event)] None).
Proof.
  rewrite refresh_guild_trace. intros [H|H]; [discriminate|].
  apply settings_loop_in in H as (l1 & s & l2 & w' & F & H).
  exists l1, s, l2. split; [exact F|].
  destruct (refresh_setting_cases O key g
              (fold_left addMention l1
                 (Message.mk (getTitle key event (Guild.locale g))
                             [(key, event)] None)) s w')
    as [[_ E]|(c' & Hc & Hne & _ & w1 & rest & E & R)];
    rewrite E in H; unfold trace_of in H; cbn [fst snd] in H.
  - destruct H as [H|[H|[]]]; discriminate.
  - destruct H as [H|[H|H]]; [discriminate | |].
    + inversion H; subst. rewrite fold_left_app. simpl. auto.
    + destruct R as [->|[id ->]]; [destruct H|].
      destruct H as [H|[]]. discriminate.
Qed.

(** X9. Every message the dispatch sends to a guild has the event's one
    embed, begins with the rendered title, and allows at most one role to
    be mentioned, a role of one of the guild's settings for the key; and
    it goes to a channel one of these settings names, with that setting's
    stored message id. *)
Theorem broadcasts_well_mentioned O key event g w c msg i :
  In (Broadcast c msg i) (trace_of (refresh_guild getTitle O key event g w)) ->
  wellMentioned (getTitle key event (Guild.locale g)) key event g msg /\
  In (c, i) (targetsOf key g).
Proof.
  intros H.
  destruct (guild_broadcast_origin O key event g w c msg i H)
    as (l1 & s & l2 & F & Hc & Hne & -> & ->).
  assert (Hall : forall s', In s' (l1 ++ [s]) ->
                   In s' (Guild.events g) /\ Setting.type s' = key).
  { intros s' Hs'. apply filter_forType. rewrite F.
    apply in_app_or in Hs' as [Hs'|[<-|[]]]; apply in_or_app;
      [now left | right; now left]. }
  split.
  - apply wellMentioned_fold; [exact Hall|].
    split; [reflexivity|]. split; [|now left].
    exists EmptyString. simpl. now rewrite append_empty_r.
  - unfold targetsOf. apply in_flat_map. exists s. split.
    + rewrite F. apply in_or_app. right. now left.
    + unfold targetOf. rewrite Hc. unfold truthy.
      apply String.eqb_neq in Hne. rewrite Hne. now left.
Qed.

(** X10. The message for a setting carries the mentions of the settings
    before it.  For a setting [s] with a channel, after the settings [l1]
    among the guild's settings for the key, the dispatch broadcasts, to
    the channel of [s] and with its stored message id, a message whose
    content is the title followed by the mention of every role-bearing
    setting of [l1] and of [s], in order, also of those that were
    skipped for want of a channel. *)
Theorem message_carries_earlier_mentions O key event g w l1 s l2 c :
  filter (forType key) (Guild.events g) = (l1 ++ s :: l2)%list ->
  Setting.channelId s = Some c ->
  c <> EmptyString ->
  exists msg,
    In (Broadcast c msg (Setting.messageId s))
       (trace_of (refresh_guild getTitle O key event g w)) /\
    Message.content msg
    = getTitle key event (Guild.locale g)
      ++ fold_right append EmptyString (map mentionSuffix (l1 ++ [s])).
Proof.
  intros F Hc Hne.
  exists (fold_left addMention (l1 ++ [s])
            (Message.mk (getTitle key event (Guild.locale g))
                        [(key, event)] None)).
  split.
  - rewrite refresh_guild_trace, F. right.
    now apply settings_loop_sends.
  - now rewrite content_fold_addMention.
Qed.

(** X11. The dispatch writes a message id back only where it has just
    sent: every write-back is for the key of the dispatch, for a guild
    among the fetched subscribers, and for a channel that one of that
    guild's settings for the key names. *)
Theorem write_back_addresses_own_setting O key event w gid k c i :
  In (UpdateEventMessageId gid k c i)
     (trace_of (refresh_broadcast getTitle O key event w)) ->
  k = key /\
  exists g s,
    In g (subscribers key w) /\ Guild.guildId g = gid /\
    In s (Guild.events g) /\ Setting.type s = key /\
    Setting.channelId s = Some c.
Proof.
  rewrite refresh_broadcast_unfold. unfold trace_of at 1. cbn [fst snd].
  intros [H|H]; [discriminate|]. unfold refresh_guilds in H.
  apply in_trace_bind in H as [H|(_ & _ & H)];
    [|destruct H as [H|[]]; discriminate].
  apply in_trace_forEach in H as (g & w' & Hg & H).
  rewrite refresh_guild_trace in H. destruct H as [H|H]; [discriminate|].
  apply settings_loop_in in H as (l1 & s & l2 & w'' & F & H).
  destruct (refresh_setting_cases O key g
              (fold_left addMention l1
                 (Message.mk (getTitle key event (Guild.locale g))
                             [(key, event)] None)) s w'')
    as [[_ E]|(c' & Hc & Hne & _ & w1 & rest & E & R)];
    rewrite E in H; unfold trace_of in H; cbn [fst snd] in H.
  - destruct H as [H|[H|[]]]; discriminate.
  - destruct H as [H|[H|H]]; [discriminate | discriminate |].
    destruct R as [->|[id ->]]; [destruct H|].
    destruct H as [H|[]]. inversion H; subst.
    split; [reflexivity|]. exists g, s.
    assert (Hs : In s (filter (forType k) (Guild.events g))).
    { rewrite F. apply in_or_app. right. now left. }
    apply filter_forType in Hs as [Hs Ht]. auto.
Qed.

End Sent.

(** * Synchronous locale loading *)

Lemma I18n_eqb_eq a b : I18n.eqb a b = true <-> a = b.
Proof. destruct a, b; simpl; split; intros H; congruence. Qed.

Lemma I18n_eqb_refl a : I18n.eqb a a = true.
Proof. now apply I18n_eqb_eq. Qed.

Section Loading.

Variables Translations Formatters : Type.
Variable localeTranslations : I18n.Locales -> Translations.
Variable initFormatters : I18n.Locales -> Formatters.

Lemma loadLocale_loaded locale s :
  I18n.loadedLocales (I18n.loadLocale localeTranslations initFormatters
        locale s) locale <> None.
Proof.
  unfold I18n.loadLocale.
  destruct (I18n.loadedLocales s locale) eqn:E.
  - now rewrite E.
  - simpl. unfold I18n.assign. now rewrite I18n_eqb_refl.
Qed.

(** What [loadLocale] does to the entries of any locale [l]: an entry
    that is there stays as it is. *)
Lemma loadLocale_keeps locale s l t :
  I18n.loadedLocales s l = Some t ->
  I18n.loadedLocales (I18n.loadLocale localeTranslations initFormatters
        locale s) l = Some t.
Proof.
  intros H. unfold I18n.loadLocale.
  destruct (I18n.loadedLocales s locale) eqn:E; [exact H|].
  simpl. unfold I18n.assign.
  destruct (I18n.eqb l locale) eqn:El; [|exact H].
  apply I18n_eqb_eq in El. subst. congruence.
Qed.

Lemma loadLocale_other locale s l :
  l <> locale ->
  I18n.loadedLocales (I18n.loadLocale localeTranslations initFormatters
        locale s) l = I18n.loadedLocales s l /\
  I18n.loadedFormatters (I18n.loadLocale localeTranslations initFormatters
        locale s) l = I18n.loadedFormatters s l.
Proof.
  intros H. unfold I18n.loadLocale.
  destruct (I18n.loadedLocales s locale); [now split|].
  simpl. unfold I18n.assign.
  destruct (I18n.eqb l locale) eqn:El; [|now split].
  apply I18n_eqb_eq in El. contradiction.
Qed.

Lemma loadLocale_formatted locale s :
  I18n.formatted s -> I18n.formatted (I18n.loadLocale localeTranslations initFormatters
        locale s).
Proof.
  intros F l. unfold I18n.loadLocale.
  destruct (I18n.loadedLocales s locale); [apply F|].
  simpl. unfold I18n.assign.
  destruct (I18n.eqb l locale); [discriminate | apply F].
Qed.

(** X12. Loading a locale twice is loading it once, and loading never
    replaces what is there: after [loadLocale] the locale is loaded, a
    second [loadLocale] changes nothing, every translation loaded before
    is still the same object, and the entries of the other locales are
    untouched. *)
Theorem loadLocale_once locale s :
  I18n.loadedLocales (I18n.loadLocale localeTranslations initFormatters
        locale s) locale <> None /\
  I18n.loadLocale localeTranslations initFormatters locale (I18n.loadLocale localeTranslations initFormatters
        locale s) = I18n.loadLocale localeTranslations initFormatters locale s /\
  (forall l t, I18n.loadedLocales s l = Some t ->
               I18n.loadedLocales (I18n.loadLocale localeTranslations initFormatters
                     locale s) l = Some t) /\
  (forall l, l <> locale ->
     I18n.loadedLocales (I18n.loadLocale localeTranslations initFormatters
           locale s) l = I18n.loadedLocales s l /\
     I18n.loadedFormatters (I18n.loadLocale localeTranslations initFormatters
           locale s) l
     = I18n.loadedFormatters s l).
Proof.
  split; [apply loadLocale_loaded|]. split; [|split].
  - pose proof (loadLocale_loaded locale s) as H.
    unfold I18n.loadLocale at 1.
    destruct (I18n.loadedLocales (I18n.loadLocale localeTranslations initFormatters
          locale s) locale);
      [reflexivity | congruence].
  - intros l t. apply loadLocale_keeps.
  - intros l. apply loadLocale_other.
Qed.

Variable locales : list I18n.Locales.

Lemma loadAll_keeps ls : forall s l t,
  I18n.loadedLocales s l = Some t ->
  I18n.loadedLocales
    (fold_left (fun s locale => I18n.loadLocale localeTranslations initFormatters locale s) ls s) l = Some t.
Proof.
  induction ls as [|a ls IH]; intros s l t H; simpl; [exact H|].
  apply IH. now apply loadLocale_keeps.
Qed.

Lemma loadAll_loaded ls : forall s l,
  In l ls ->
  I18n.loadedLocales
    (fold_left (fun s locale => I18n.loadLocale localeTranslations initFormatters locale s) ls s) l <> None.
Proof.
  induction ls as [|a ls IH]; intros s l H; simpl; [destruct H|].
  destruct H as [->|H]; [|now apply IH].
  pose proof (loadLocale_loaded l s) as Hl.
  destruct (I18n.loadedLocales (I18n.loadLocale localeTranslations initFormatters
        l s) l) as [t|] eqn:E;
    [|congruence].
  rewrite (loadAll_keeps ls _ l t E). discriminate.
Qed.

Lemma loadAll_formatted ls : forall s,
  I18n.formatted s ->
  I18n.formatted (fold_left (fun s locale => I18n.loadLocale localeTranslations initFormatters locale s) ls s).
Proof.
  induction ls as [|a ls IH]; intros s F; simpl; [exact F|].
  apply IH. now apply loadLocale_formatted.
Qed.

Lemma loadAll_other ls : forall s l,
  ~ In l ls ->
  I18n.loadedLocales
    (fold_left (fun s locale => I18n.loadLocale localeTranslations initFormatters locale s) ls s) l
  = I18n.loadedLocales s l /\
  I18n.loadedFormatters
    (fold_left (fun s locale => I18n.loadLocale localeTranslations initFormatters locale s) ls s) l
  = I18n.loadedFormatters s l.
Proof.
  induction ls as [|a ls IH]; intros s l H; simpl; [now split|].
  assert (Ha : l <> a) by (intros ->; apply H; now left).
  assert (Hl : ~ In l ls) by (intros Hin; apply H; now right).
  destruct (IH (I18n.loadLocale localeTranslations initFormatters
        a s) l Hl) as [E1 E2].
  destruct (loadLocale_other a s l Ha) as [E3 E4].
  split; congruence.
Qed.

Lemma loadAll_skips ls l t : forall s,
  I18n.loadedLocales s l = Some t ->
  I18n.loadedFormatters
    (fold_left (fun s locale =>
                  I18n.loadLocale localeTranslations initFormatters locale s)
               ls s) l
  = I18n.loadedFormatters s l.
Proof.
  induction ls as [|a ls IH]; intros s H; simpl; [reflexivity|].
  rewrite IH by now apply loadLocale_keeps.
  destruct (I18n.eqb l a) eqn:E.
  - apply I18n_eqb_eq in E. subst a. unfold I18n.loadLocale. now rewrite H.
  - apply loadLocale_other. intros ->. now rewrite I18n_eqb_refl in E.
Qed.

(** X13. The guard of line 29 looks at the translations only:
    [loadAllLocales] leaves the formatters of every locale whose
    translation is already there as they are, also when they are
    missing. *)
Theorem loadAllLocales_skips_loaded s l t :
  I18n.loadedLocales s l = Some t ->
  I18n.loadedFormatters
    (I18n.loadAllLocales localeTranslations initFormatters locales s) l
  = I18n.loadedFormatters s l.
Proof. unfold I18n.loadAllLocales. apply loadAll_skips. Qed.

(** X14. [loadAllLocales] loads every listed locale and nothing else:
    afterwards each locale of [locales] has a translation, a translation
    that was loaded before is still the same object, a locale that is
    not listed has the entries it had, and when every loaded locale had
    its formatters before, every loaded locale has them afterwards. *)
Theorem loadAllLocales_complete s :
  (forall l, In l locales ->
     I18n.loadedLocales (I18n.loadAllLocales localeTranslations initFormatters locales s) l <> None) /\
  (forall l t, I18n.loadedLocales s l = Some t ->
     I18n.loadedLocales (I18n.loadAllLocales localeTranslations initFormatters locales s) l = Some t) /\
  (forall l, ~ In l locales ->
     I18n.loadedLocales (I18n.loadAllLocales localeTranslations initFormatters locales s) l
     = I18n.loadedLocales s l /\
     I18n.loadedFormatters (I18n.loadAllLocales localeTranslations initFormatters locales s) l
     = I18n.loadedFormatters s l) /\
  (I18n.formatted s -> I18n.formatted (I18n.loadAllLocales localeTranslations initFormatters locales s)).
Proof.
  unfold I18n.loadAllLocales. split; [|split; [|split]].
  - intros l. apply loadAll_loaded.
  - intros l t. apply loadAll_keeps.
  - intros l. apply loadAll_other.
  - apply loadAll_formatted.
Qed.

End Loading.

(** * Concrete runs of the further properties *)

(** Two ticks from the empty table. *)
Lemma one_record_per_occurrence_witness :
  distinctOccurrences
    (notification
       (state_of (run Sample.title
                      [Scenario.sampleTick 1040000;
                       Scenario.sampleTick 1650000]
                      Sample.empty))).
Proof.
  apply (one_record_per_occurrence Sample.title
           [Scenario.sampleTick 1040000; Scenario.sampleTick 1650000]
           Sample.empty).
  unfold distinctOccurrences. simpl. constructor.
Defined.

(** A tick that fetches the Helltide after it has been refreshed. *)
Lemma settled_tick_is_silent_witness :
  refresh Sample.title (Some {| event_service := Some true |})
          (Some [("helltide", Sample.helltide)])
          (fun _ => Sample.at_ 1710000) Scenario.refreshed
  = (Ok tt, Scenario.refreshed, [Logged Refreshing]).
Proof.
  apply (settled_tick_is_silent Sample.title [("helltide", Sample.helltide)]
           (fun _ => Sample.at_ 1710000) Scenario.refreshed).
  intros key event [H|[]]. inversion H; subst.
  eexists. split; [reflexivity|]. right. reflexivity.
Defined.

(** The create of the tick at second 1040. *)
Lemma creates_only_for_fetched_witness :
  In ("helltide", Sample.helltide) [("helltide", Sample.helltide)] /\
  1000%Z = Event.timestamp Sample.helltide /\
  1600%Z = refreshTimestampFor "helltide" Sample.helltide.
Proof.
  apply (creates_only_for_fetched Sample.title Sample.available
           [("helltide", Sample.helltide)] (fun _ => Sample.at_ 1040000)
           Sample.empty "helltide" Sample.helltide 1000 1600).
  vm_compute. right. left. reflexivity.
Defined.

(** A world boss announced for second 1000 and fetched at second 990. *)
Lemma other_kinds_notify_at_once_witness :
  hd_error (trace_of (refresh_event Sample.title (Sample.at_ 990000) "boss"
                                    Sample.boss Sample.empty))
  = Some (Create "boss" Sample.boss (Event.timestamp Sample.boss) 0) /\
  notify_trigger
    (trace_of (refresh_event Sample.title (Sample.at_ 990000) "boss"
                             Sample.boss Sample.empty)) = true.
Proof.
  apply (other_kinds_notify_at_once Sample.title (Sample.at_ 990000) "boss"
           Sample.boss Sample.empty).
  - unfold Events.Helltide. discriminate.
  - reflexivity.
  - simpl. lia.
Defined.

(** The late refresh, at the second it is announced for. *)
Lemma refresh_beyond_window_never_fires_witness :
  refresh_event Sample.title (Sample.at_ 5000000) "helltide" Scenario.late
                Scenario.lateWorld
  = (Ok tt, Scenario.lateWorld, [Logged (NotReady "helltide")]).
Proof.
  apply (refresh_beyond_window_never_fires Sample.title (Sample.at_ 5000000)
           "helltide" Scenario.late Scenario.lateWorld
           (Notification.mk 1 "helltide" Scenario.late 1000 5000 false)).
  - reflexivity.
  - reflexivity.
  - simpl. lia.
  - simpl. lia.
Defined.

(** The second broadcast to the sample guild. *)
Lemma broadcasts_well_mentioned_witness :
  wellMentioned (Sample.title "helltide" Sample.helltide "en") "helltide"
    Sample.helltide Sample.guild1
    (Message.mk "helltide - <@&r1> - <@&r2>" [("helltide", Sample.helltide)]
                (Some ["r2"])) /\
  In ("c2", None) (targetsOf "helltide" Sample.guild1).
Proof.
  apply (broadcasts_well_mentioned Sample.title (Sample.at_ 1040000)
           "helltide" Sample.helltide Sample.guild1 Sample.empty "c2"
           (Message.mk "helltide - <@&r1> - <@&r2>"
                       [("helltide", Sample.helltide)] (Some ["r2"]))
           None).
  vm_compute. do 5 right. left. reflexivity.
Defined.

(** A guild whose first Helltide setting has a role and no channel: the
    message for its second Helltide setting mentions both roles. *)
Lemma message_carries_earlier_mentions_witness :
  exists msg,
    In (Broadcast "c2" msg (Some "m7"))
       (trace_of (refresh_guild Sample.title (Sample.at_ 1040000) "helltide"
                                Sample.helltide Scenario.guild2 Sample.empty)) /\
    Message.content msg = "helltide - <@&r1> - <@&r2>".
Proof.
  apply (message_carries_earlier_mentions Sample.title (Sample.at_ 1040000)
           "helltide" Sample.helltide Scenario.guild2 Sample.empty
           [Setting.mk "helltide" None (Some "r1") None]
           (Setting.mk "helltide" (Some "c2") (Some "r2") (Some "m7"))
           [] "c2").
  - reflexivity.
  - reflexivity.
  - discriminate.
Defined.

(** The first write-back of the dispatch to the sample guild. *)
Lemma write_back_addresses_own_setting_witness :
  "helltide" = "helltide" /\
  exists g s,
    In g (subscribers "helltide" Sample.empty) /\ Guild.guildId g = "g1" /\
    In s (Guild.events g) /\ Setting.type s = "helltide" /\
    Setting.channelId s = Some "c1".
Proof.
  apply (write_back_addresses_own_setting Sample.title (Sample.at_ 1040000)
           "helltide" Sample.helltide Sample.empty "g1" "helltide" "c1"
           (Some "m1")).
  vm_compute. do 4 right. left. reflexivity.
Defined.

(** Loading French into tables that hold English. *)
Lemma loadLocale_once_witness :
  I18n.loadedLocales
    (I18n.loadLocale Scenario.translations Scenario.formatters I18n.fr
                     Scenario.partly) I18n.en
  = Some "en".
Proof.
  destruct (loadLocale_once string string Scenario.translations
              Scenario.formatters I18n.fr Scenario.partly)
    as (_ & _ & Hkeep & _).
  apply Hkeep. reflexivity.
Defined.

(** English, loaded without formatters, stays without them. *)
Lemma loadAllLocales_skips_loaded_witness :
  I18n.loadedFormatters
    (I18n.loadAllLocales Scenario.translations Scenario.formatters
                         [I18n.en; I18n.fr] Scenario.partly) I18n.en
  = I18n.loadedFormatters Scenario.partly I18n.en.
Proof.
  apply (loadAllLocales_skips_loaded string string Scenario.translations
           Scenario.formatters [I18n.en; I18n.fr] Scenario.partly I18n.en
           "en").
  reflexivity.
Defined.

(** Loading English and French into empty tables. *)
Lemma loadAllLocales_complete_witness :
  I18n.loadedLocales
    (I18n.loadAllLocales Scenario.translations Scenario.formatters
                         [I18n.en; I18n.fr] Scenario.nothing) I18n.fr
  <> None.
Proof.
  destruct (loadAllLocales_complete string string Scenario.translations
              Scenario.formatters [I18n.en; I18n.fr] Scenario.nothing)
    as (Hall & _).
  apply Hall. right. left. reflexivity.
Defined.

(** * Broadcasts and their cause *)

Section Cause.

Variable getTitle : string -> Event.t -> string -> string.

(** A broadcast of one event's step is a broadcast of its dispatch, run
    from the world before the step, and the step opened with the create
    or with the update. *)
Lemma refresh_event_broadcast_origin O key event w c msg i :
  In (Broadcast c msg i) (trace_of (refresh_event getTitle O key event w)) ->
  In (Broadcast c msg i)
     (trace_of (refresh_broadcast getTitle O key event w)) /\
  (notify_trigger (trace_of (refresh_event getTitle O key event w))
   || refresh_trigger (trace_of (refresh_event getTitle O key event w)))
  = true.
Proof.
  destruct (record key (Event.timestamp event) w) as [exist|] eqn:H.
  - destruct (Z_gt_le_dec (Notification.refreshTimestamp exist) 0) as [HR|HR];
      [destruct (Notification.refreshed exist) eqn:Hr|].
    + rewrite (refresh_event_handled getTitle O key event w exist H
                 (or_intror Hr)). intros [].
    + destruct (refreshDue O exist) eqn:Hd.
      * destruct (refresh_event_refreshing getTitle O key event w exist
                    H HR Hr Hd) as (w' & t & B & _ & E).
        rewrite E, B. unfold trace_of. cbn [fst snd]. intros Hin.
        rewrite refresh_trigger_update, orb_true_r. split; [|reflexivity].
        apply in_app_or in Hin as [Hin|Hin]; [|exact Hin].
        unfold updateTrace in Hin.
        destruct (updateFails O); simpl in Hin;
          repeat (destruct Hin as [Hin|Hin]; try discriminate); destruct Hin.
      * rewrite (refresh_event_waiting getTitle O key event w exist
                   H HR Hr Hd).
        intros [Hin|[]]. discriminate.
    + rewrite (refresh_event_handled getTitle O key event w exist H
                 (or_introl HR)). intros [].
  - destruct (tooRecent O key event) eqn:Hr.
    + rewrite (refresh_event_recent getTitle O key event w H Hr).
      intros [Hin|[]]. discriminate.
    + destruct (tooOld O event) eqn:Ho.
      * rewrite (refresh_event_stale getTitle O key event w H Hr Ho).
        unfold trace_of, createTrace. cbn [fst snd]. intros Hin. exfalso.
        destruct (createFails O); simpl in Hin;
          repeat (destruct Hin as [Hin|Hin]; try discriminate); destruct Hin.
      * destruct (refresh_event_notify getTitle O key event w H Hr Ho)
          as (w' & t & B & _ & E).
        rewrite E, B. unfold trace_of. cbn [fst snd]. intros Hin.
        rewrite notify_trigger_create. split; [|reflexivity].
        apply in_app_or in Hin as [Hin|Hin]; [|exact Hin].
        unfold createTrace in Hin.
        destruct (createFails O); simpl in Hin;
          repeat (destruct Hin as [Hin|Hin]; try discriminate); destruct Hin.
Qed.

Lemma dispatch_broadcast_embeds O key event w c msg i :
  In (Broadcast c msg i)
     (trace_of (refresh_broadcast getTitle O key event w)) ->
  Message.embeds msg = [(key, event)].
Proof.
  rewrite refresh_broadcast_unfold. unfold trace_of at 1. cbn [fst snd].
  intros [H|H]; [discriminate|]. unfold refresh_guilds in H.
  apply in_trace_bind in H as [H|(_ & _ & H)];
    [|destruct H as [H|[]]; discriminate].
  apply in_trace_forEach in H as (g & w' & _ & H).
  destruct (guild_broadcast_origin getTitle O key event g w' c msg i H)
    as (l1 & s & l2 & _ & _ & _ & _ & ->).
  generalize (l1 ++ [s])%list. intros l.
  assert (G : forall m, Message.embeds m = [(key, event)] ->
                Message.embeds (fold_left addMention l m) = [(key, event)]).
  { induction l as [|a l IH]; intros m Hm; simpl; [exact Hm|].
    apply IH. unfold addMention.
    destruct (Setting.roleId a) as [role|]; [|exact Hm].
    destruct (truthy (Some role)); exact Hm. }
  now apply G.
Qed.

(** X15. Nothing is sent without its cause: a step that broadcasts has
    fired the notify-trigger or the refresh-trigger, that is, it has
    issued the create for an unseen occurrence or the update for a record
    whose refresh is due, and the message shows the event of that step. *)
Theorem no_broadcast_without_trigger O key event w c msg i :
  In (Broadcast c msg i) (trace_of (refresh_event getTitle O key event w)) ->
  (notify_trigger (trace_of (refresh_event getTitle O key event w))
   || refresh_trigger (trace_of (refresh_event getTitle O key event w)))
  = true /\
  Message.embeds msg = [(key, event)].
Proof.
  intros H.
  destruct (refresh_event_broadcast_origin O key event w c msg i H)
    as [Hb Ht].
  split; [exact Ht|]. eapply dispatch_broadcast_embeds; eauto.
Qed.

(** X16. A tick sends about fetched occurrences only: every message it
    broadcasts shows, as its one embed, an entry of the fetched events. *)
Theorem broadcasts_only_for_fetched status_ entries env w c msg i :
  In (Broadcast c msg i)
     (trace_of (refresh getTitle status_ (Some entries) env w)) ->
  exists key event,
    In (key, event) entries /\ Message.embeds msg = [(key, event)].
Proof.
  unfold refresh. intros H.
  apply in_trace_bind in H as [H|(_ & _ & H)].
  - destruct H as [H|[]]. discriminate.
  - destruct status_ as [[[[|]|]]|];
      try (destruct H as [H|[]]; discriminate).
    apply in_trace_forEach in H as ([k event] & w' & Hin & H).
    unfold entry_body in H. cbn [fst snd] in H.
    exists k, event. split; [exact Hin|].
    destruct (refresh_event_broadcast_origin (env k) k event w' c msg i H)
      as [Hb _].
    eapply dispatch_broadcast_embeds; eauto.
Qed.

End Cause.

(** The first broadcast of the step that creates the sample Helltide. *)
Lemma no_broadcast_without_trigger_witness :
  (notify_trigger
     (trace_of (refresh_event Sample.title (Sample.at_ 1040000) "helltide"
                              Sample.helltide Sample.empty))
   || refresh_trigger
        (trace_of (refresh_event Sample.title (Sample.at_ 1040000) "helltide"
                                 Sample.helltide Sample.empty)))
  = true /\
  Message.embeds
    (Message.mk "helltide - <@&r1>" [("helltide", Sample.helltide)]
                (Some ["r1"]))
  = [("helltide", Sample.helltide)].
Proof.
  apply (no_broadcast_without_trigger Sample.title (Sample.at_ 1040000)
           "helltide" Sample.helltide Sample.empty "c1"
           (Message.mk "helltide - <@&r1>" [("helltide", Sample.helltide)]
                       (Some ["r1"]))
           None).
  vm_compute. do 4 right. left. reflexivity.
Defined.

(** The same broadcast, seen in the whole tick. *)
Lemma broadcasts_only_for_fetched_witness :
  exists key event,
    In (key, event) [("helltide", Sample.helltide)] /\
    Message.embeds
      (Message.mk "helltide - <@&r1>" [("helltide", Sample.helltide)]
                  (Some ["r1"]))
    = [(key, event)].
Proof.
  apply (broadcasts_only_for_fetched Sample.title Sample.available
           [("helltide", Sample.helltide)] (fun _ => Sample.at_ 1040000)
           Sample.empty "c1"
           (Message.mk "helltide - <@&r1>" [("helltide", Sample.helltide)]
                       (Some ["r1"]))
           None).
  vm_compute. do 5 right. left. reflexivity.
Defined.

(** * The first notification, the write-back and the rejected create *)

Section Seen.

Variable getTitle : string -> Event.t -> string -> string.

(** When the occurrence has a record, a step that reaches the dispatch is
    the refresh: the record has a refresh phase ahead that is due, and
    the step opens with the update. *)
Lemma seen_dispatch_is_refresh O key event w exist :
  record key (Event.timestamp event) w = Some exist ->
  existsb startsBroadcast
    (trace_of (refresh_event getTitle O key event w)) = true \/
  existsb isBroadcast
    (trace_of (refresh_event getTitle O key event w)) = true ->
  (Notification.refreshTimestamp exist > 0)%Z /\
  Notification.refreshed exist = false /\
  refreshDue O exist = true /\
  hd_error (trace_of (refresh_event getTitle O key event w))
  = Some (Update (Notification.id exist)) /\
  refresh_trigger (trace_of (refresh_event getTitle O key event w)) = true.
Proof.
  intros H.
  destruct (Z_gt_le_dec (Notification.refreshTimestamp exist) 0) as [HR|HR];
    [destruct (Notification.refreshed exist) eqn:Hr|].
  - rewrite (refresh_event_handled getTitle O key event w exist H
               (or_intror Hr)).
    intros [D|D]; discriminate.
  - destruct (refreshDue O exist) eqn:Hd.
    + intros _.
      destruct (update_comes_first getTitle O key event w exist H HR Hr Hd)
        as (t & Et).
      rewrite (refresh_trigger_is_due getTitle O key event w exist H HR Hr).
      rewrite Et. auto.
    + rewrite (refresh_event_waiting getTitle O key event w exist H HR Hr Hd).
      intros [D|D]; discriminate.
  - rewrite (refresh_event_handled getTitle O key event w exist H
               (or_introl HR)).
    intros [D|D]; discriminate.
Qed.

(** C2. Fix an occurrence [(key, ts)] and a store that accepts the creates
    for [key].  Over any run of ticks, whatever they fetch, the create for
    the occurrence is issued at most once.  Once a record for the
    occurrence exists, no tick issues that create again, and processing
    the occurrence again, after any number of ticks, neither creates nor
    fires the notify-trigger, and it does not send the first notification
    again: if such a step reaches the dispatch or broadcasts at all, it is
    the refresh of a record that is not yet refreshed, and it opens with
    the update of that record. *)
Theorem first_notification_once key ts ticks w :
  (forall t, In t ticks -> createFails (env t key) = None) ->
  (creations key ts (trace_of (run getTitle ticks w)) <= 1)%nat /\
  (record key ts w <> None ->
   creations key ts (trace_of (run getTitle ticks w)) = 0%nat /\
   forall O event,
     Event.timestamp event = ts ->
     existsb isCreate
       (trace_of (refresh_event getTitle O key event
                    (state_of (run getTitle ticks w)))) = false /\
     notify_trigger
       (trace_of (refresh_event getTitle O key event
                    (state_of (run getTitle ticks w)))) = false /\
     (existsb startsBroadcast
        (trace_of (refresh_event getTitle O key event
                     (state_of (run getTitle ticks w)))) = true \/
      existsb isBroadcast
        (trace_of (refresh_event getTitle O key event
                     (state_of (run getTitle ticks w)))) = true ->
      exists exist,
        record key ts (state_of (run getTitle ticks w)) = Some exist /\
        (Notification.refreshTimestamp exist > 0)%Z /\
        Notification.refreshed exist = false /\
        hd_error
          (trace_of (refresh_event getTitle O key event
                       (state_of (run getTitle ticks w))))
        = Some (Update (Notification.id exist)) /\
        refresh_trigger
          (trace_of (refresh_event getTitle O key event
                       (state_of (run getTitle ticks w)))) = true)).
Proof.
  intros Hc.
  destruct (once_run getTitle key ts ticks Hc w)
    as (a & w' & t & E & G & S & L & C).
  rewrite E. unfold trace_of at 1 2. unfold state_of. cbn [fst snd].
  split; [exact L|]. intros Hw. split; [exact (S Hw)|].
  intros O event Hts.
  assert (Hw' : record key ts w' <> None).
  { unfold record. eapply grows_seen; eauto. }
  destruct (record key ts w') as [exist|] eqn:Hrec; [|congruence].
  assert (Q : existsb isCreate
                (trace_of (refresh_event getTitle O key event w')) = false).
  { destruct (refresh_event_creates getTitle O key event w')
      as [Q|(H & _)]; [exact Q|]. rewrite Hts in H. congruence. }
  split; [exact Q|]. split; [unfold notify_trigger; now rewrite Q|].
  intros D. exists exist. split; [reflexivity|].
  rewrite <- Hts in Hrec.
  destruct (seen_dispatch_is_refresh O key event w' exist Hrec D)
    as (HR & Hr & _ & Hhd & Hf).
  auto.
Qed.

End Seen.

(** Two ticks, at seconds 1040 and 1100, that both fetch the Helltide of
    second 1000: one create. *)
Lemma first_notification_once_witness :
  (creations "helltide" 1000
     (trace_of
        (run Sample.title
           [Scenario.sampleTick 1040000; Scenario.sampleTick 1100000]
           Sample.empty)) <= 1)%nat.
Proof.
  apply (first_notification_once Sample.title "helltide" 1000
           [Scenario.sampleTick 1040000; Scenario.sampleTick 1100000]
           Sample.empty).
  intros t [<-|[<-|[]]]; reflexivity.
Defined.

(** C4, as the code has it.  A setting with a channel is dispatched.
    When the first entry of the broadcaster's answer is a message, the
    step ends with the write-back call for the guild, the key and the
    channel, carrying that message's id, and the addressed settings of the
    repository, the dispatched one among them, then hold that id.  When
    the answer is [null] or an empty list, the step ends with the
    broadcast: no write-back is called and the repository is as it was.
    When the first entry of the answer is [null], the guard of line 175
    lets the call through and the write-back is called with an undefined
    id. *)
Theorem message_id_write_back O key g message setting channelId w :
  Setting.channelId setting = Some channelId ->
  channelId <> EmptyString ->
  (forall id rest,
     respond O (calls w) channelId (addMention message setting)
             (Setting.messageId setting) = Some (Some id :: rest) ->
     trace_of (refresh_setting O key g message setting w)
     = [Logged (Enabled key (Guild.id g));
        Broadcast channelId (addMention message setting)
                  (Setting.messageId setting);
        UpdateEventMessageId (Guild.guildId g) key channelId (Some id)] /\
     storedMessageIds (Guild.guildId g) key channelId
       (state_of (refresh_setting O key g message setting w))
     = map (fun _ => Some id)
           (storedMessageIds (Guild.guildId g) key channelId w) /\
     (In g (guild w) -> In setting (Guild.events g) ->
      Setting.type setting = key ->
      In (Some id)
         (storedMessageIds (Guild.guildId g) key channelId
            (state_of (refresh_setting O key g message setting w))))) /\
  (respond O (calls w) channelId (addMention message setting)
           (Setting.messageId setting) = None \/
   respond O (calls w) channelId (addMention message setting)
           (Setting.messageId setting) = Some [] ->
   trace_of (refresh_setting O key g message setting w)
   = [Logged (Enabled key (Guild.id g));
      Broadcast channelId (addMention message setting)
                (Setting.messageId setting)] /\
   existsb isWriteBack (trace_of (refresh_setting O key g message setting w))
   = false /\
   guild (state_of (refresh_setting O key g message setting w)) = guild w) /\
  (forall rest,
     respond O (calls w) channelId (addMention message setting)
             (Setting.messageId setting) = Some (None :: rest) ->
     trace_of (refresh_setting O key g message setting w)
     = [Logged (Enabled key (Guild.id g));
        Broadcast channelId (addMention message setting)
                  (Setting.messageId setting);
        UpdateEventMessageId (Guild.guildId g) key channelId None]).
Proof.
  intros Hc Hne.
  rewrite (refresh_setting_run O key g message setting channelId w Hc Hne).
  split; [|split].
  - intros id rest ->.
    assert (St : storedMessageIds (Guild.guildId g) key channelId
       (state_of (updateEventMessageId (Guild.guildId g) key channelId (Some id)
                    (mkWorld (notification w) (guild w) (S (calls w)))))
       = map (fun _ => Some id)
             (storedMessageIds (Guild.guildId g) key channelId w)).
    { now rewrite storedMessageIds_updated. }
    set (w1 := state_of (updateEventMessageId (Guild.guildId g) key channelId
                           (Some id) _)) in *.
    unfold trace_of, state_of. cbn [fst snd].
    split; [reflexivity|]. split; [exact St|].
    intros Hg Hs Ht. rewrite St.
    assert (Ha : addressed key channelId setting = true).
    { unfold addressed, forType. rewrite Ht, Hc.
      now rewrite !String.eqb_refl. }
    pose proof (storedMessageIds_holds (Guild.guildId g) key channelId w g
                  setting Hg eq_refl Hs Ha) as Hin.
    apply (in_map (fun _ => Some id)) in Hin. exact Hin.
  - intros [-> | ->]; repeat split; reflexivity.
  - intros rest ->. reflexivity.
Qed.

(** The first setting of the sample guild, with a broadcaster that
    delivers: the write-back is called and the repository holds the
    returned id for it. *)
Lemma message_id_write_back_witness :
  trace_of (refresh_setting (Sample.at_ 1040000) "helltide" Sample.guild1
              (Message.mk "helltide" [("helltide", Sample.helltide)] None)
              (Setting.mk "helltide" (Some "c1") (Some "r1") None)
              Sample.empty)
  = [Logged (Enabled "helltide" 1);
     Broadcast "c1"
       (Message.mk "helltide - <@&r1>" [("helltide", Sample.helltide)]
                   (Some ["r1"])) None;
     UpdateEventMessageId "g1" "helltide" "c1" (Some "m1")] /\
  storedMessageIds "g1" "helltide" "c1"
    (state_of (refresh_setting (Sample.at_ 1040000) "helltide" Sample.guild1
                 (Message.mk "helltide" [("helltide", Sample.helltide)] None)
                 (Setting.mk "helltide" (Some "c1") (Some "r1") None)
                 Sample.empty))
  = [Some "m1"].
Proof.
  destruct (message_id_write_back (Sample.at_ 1040000) "helltide"
              Sample.guild1
              (Message.mk "helltide" [("helltide", Sample.helltide)] None)
              (Setting.mk "helltide" (Some "c1") (Some "r1") None)
              "c1" Sample.empty) as [Hsent _];
    [reflexivity | discriminate |].
  destruct (Hsent "m1" []) as (Htrace & Hstored & _); [reflexivity|].
  split; [exact Htrace | exact Hstored].
Defined.

(** C4, as stated, fails.  The broadcaster answers with a list whose one
    entry is [null], the value the cast of line 173 allows for a send
    that produced no message.  The guard of line 175 holds, and line 176
    calls the write-back, with an undefined id. *)
Lemma write_back_called_on_null_entry :
  respond (Failing.sendsNull 1040000) (calls Sample.empty) "c1"
    (addMention (Message.mk "helltide" [("helltide", Sample.helltide)] None)
                (Setting.mk "helltide" (Some "c1") (Some "r1") None))
    None
  = Some [None] /\
  existsb isWriteBack
    (trace_of (refresh_setting (Failing.sendsNull 1040000) "helltide"
                 Sample.guild1
                 (Message.mk "helltide" [("helltide", Sample.helltide)] None)
                 (Setting.mk "helltide" (Some "c1") (Some "r1") None)
                 Sample.empty))
  = true /\
  In (UpdateEventMessageId "g1" "helltide" "c1" None)
     (trace_of (refresh_setting (Failing.sendsNull 1040000) "helltide"
                  Sample.guild1
                  (Message.mk "helltide" [("helltide", Sample.helltide)] None)
                  (Setting.mk "helltide" (Some "c1") (Some "r1") None)
                  Sample.empty)).
Proof.
  split; [reflexivity|]. split; [reflexivity|].
  vm_compute. do 2 right. left. reflexivity.
Qed.

Section RejectedCreate.

Variable getTitle : string -> Event.t -> string -> string.

(** C8, as the code has it.  When the create for a new occurrence is
    rejected, the rejection is caught and logged right after the call and
    the table is left as it was.  The rest of the step is what it is when
    the create succeeds: the same calls and log lines follow and the
    guilds end up the same.  So, unless the occurrence is stale, the
    notify-trigger fires and the dispatch sends one broadcast for every
    setting of the fetched subscribers for the key that names a channel;
    when the occurrence is stale the step ends after the error line and
    the too-old line, with no broadcast.  Either way the tick goes on
    with the remaining entries, from the world this step left. *)
Theorem create_failure_not_fatal O key event w msg :
  record key (Event.timestamp event) w = None ->
  tooRecent O key event = false ->
  createFails O = Some msg ->
  (exists tail,
     trace_of (refresh_event getTitle O key event w)
     = Create key event (Event.timestamp event) (refreshTimestampFor key event)
       :: Logged (CreateFailed key msg) :: tail /\
     trace_of (refresh_event getTitle (withCreate None O) key event w)
     = Create key event (Event.timestamp event) (refreshTimestampFor key event)
       :: tail) /\
  result_of (refresh_event getTitle O key event w) = Ok tt /\
  notification (state_of (refresh_event getTitle O key event w))
  = notification w /\
  guild (state_of (refresh_event getTitle O key event w))
  = guild (state_of (refresh_event getTitle (withCreate None O) key event w)) /\
  notify_trigger (trace_of (refresh_event getTitle O key event w))
  = notify_trigger
      (trace_of (refresh_event getTitle (withCreate None O) key event w)) /\
  ((now O <= Event.timestamp event * 1000 + 5 * 60 * 1000)%Z ->
   notify_trigger (trace_of (refresh_event getTitle O key event w)) = true /\
   broadcastTargets (trace_of (refresh_event getTitle O key event w))
   = flat_map (targetsOf key) (subscribers key w)) /\
  ((now O > Event.timestamp event * 1000 + 5 * 60 * 1000)%Z ->
   refresh_event getTitle O key event w
   = (Ok tt, w,
      [Create key event (Event.timestamp event)
              (refreshTimestampFor key event);
       Logged (CreateFailed key msg); Logged (TooOld key)])) /\
  (forall env rest,
     env key = O ->
     refresh getTitle (Some {| event_service := Some true |})
             (Some ((key, event) :: rest)) env w
     = (result_of (forEach rest (entry_body getTitle env)
                     (state_of (refresh_event getTitle O key event w))),
        state_of (forEach rest (entry_body getTitle env)
                    (state_of (refresh_event getTitle O key event w))),
        Logged Refreshing
        :: (trace_of (refresh_event getTitle O key event w)
            ++ trace_of (forEach rest (entry_body getTitle env)
                           (state_of (refresh_event getTitle O key event w))))%list)).
Proof.
  intros H Hr Hc.
  assert (Cont : forall env rest, env key = O ->
    result_of (refresh_event getTitle O key event w) = Ok tt ->
    refresh getTitle (Some {| event_service := Some true |})
            (Some ((key, event) :: rest)) env w
    = (result_of (forEach rest (entry_body getTitle env)
                    (state_of (refresh_event getTitle O key event w))),
       state_of (forEach rest (entry_body getTitle env)
                   (state_of (refresh_event getTitle O key event w))),
       Logged Refreshing
       :: (trace_of (refresh_event getTitle O key event w)
           ++ trace_of (forEach rest (entry_body getTitle env)
                          (state_of (refresh_event getTitle O key event w))))%list)).
  { intros env rest Henv Hok.
    rewrite (refresh_entries getTitle _ _ env w eq_refl), forEach_cons.
    assert (Ex : entry_body getTitle env (key, event) w
                 = (Ok tt, state_of (refresh_event getTitle O key event w),
                    trace_of (refresh_event getTitle O key event w))).
    { unfold entry_body. cbn [fst snd]. rewrite Henv.
      rewrite (surjective_run (refresh_event getTitle O key event w)) at 1.
      now rewrite Hok. }
    rewrite (bind_ok _ _ _ _ _ _ Ex). reflexivity. }
  destruct (tooOld O event) eqn:Ho.
  - (* stale: neither run dispatches *)
    pose proof (refresh_event_stale getTitle O key event w H Hr Ho) as E.
    pose proof (refresh_event_stale getTitle (withCreate None O) key event w
                  H Hr Ho) as E'.
    unfold createTrace, afterCreate in E, E'. rewrite Hc in E.
    cbn [createFails withCreate app] in E'. cbn [app] in E.
    split; [|split; [|split; [|split; [|split; [|split; [|split]]]]]].
    + exists [Logged (TooOld key)]. now rewrite E, E'.
    + now rewrite E.
    + now rewrite E.
    + now rewrite E, E'.
    + now rewrite E, E'.
    + intros Hn. apply tooOld_iff in Ho. lia.
    + intros _. exact E.
    + intros env rest Henv. apply Cont; [exact Henv | now rewrite E].
  - destruct (refresh_event_notify getTitle O key event w H Hr Ho)
      as (w1 & t1 & B & _ & E).
    destruct (refresh_event_notify getTitle (withCreate None O) key event w
                H Hr Ho) as (w2 & t2 & B' & _ & E').
    rewrite refresh_broadcast_withCreate, B in B'.
    inversion B'; subst w2 t2. clear B'.
    pose proof (refresh_broadcast_targets getTitle O key event w) as T.
    rewrite B in T. unfold trace_of in T. cbn [fst snd] in T.
    unfold createTrace, afterCreate in E, E'. rewrite Hc in E.
    cbn [createFails withCreate app] in E'. cbn [app] in E.
    split; [|split; [|split; [|split; [|split; [|split; [|split]]]]]].
    + eexists. rewrite E, E'. split; reflexivity.
    + now rewrite E.
    + now rewrite E.
    + now rewrite E, E'.
    + now rewrite E, E'.
    + intros _. rewrite E. split; [reflexivity|].
      unfold trace_of. cbn [fst snd]. exact T.
    + intros Hn. apply not_true_iff_false in Ho. exfalso. apply Ho.
      apply tooOld_iff. exact Hn.
    + intros env rest Henv. apply Cont; [exact Henv | now rewrite E].
Qed.

End RejectedCreate.

(** A Helltide of second 1000 seen at second 1040 by a database that
    rejects the create: the error is logged, the trigger fires and both
    settings of the sample guild are sent to. *)
Lemma create_failure_not_fatal_witness :
  result_of (refresh_event Sample.title (Sample.rejectingCreate 1040000)
                           "helltide" Sample.helltide Sample.empty) = Ok tt /\
  notify_trigger
    (trace_of (refresh_event Sample.title (Sample.rejectingCreate 1040000)
                             "helltide" Sample.helltide Sample.empty)) = true /\
  broadcastTargets
    (trace_of (refresh_event Sample.title (Sample.rejectingCreate 1040000)
                             "helltide" Sample.helltide Sample.empty))
  = [("c1", None); ("c2", None)].
Proof.
  destruct (create_failure_not_fatal Sample.title
              (Sample.rejectingCreate 1040000) "helltide" Sample.helltide
              Sample.empty "db down")
    as (_ & Hok & _ & _ & _ & Hfire & _);
    [reflexivity | reflexivity | reflexivity |].
  destruct Hfire as [Hf Hb]; [simpl; lia|].
  split; [exact Hok|]. split; [exact Hf | exact Hb].
Defined.

(** C8, as stated, fails.  A Helltide of second 1000 is first seen at
    second 1400 by a database that rejects the create.  The rejection is
    caught and logged, but the occurrence is stale: the notify-trigger
    does not fire and nothing is broadcast, although the sample guild
    subscribes with two channels. *)
Lemma rejected_create_of_stale_occurrence :
  record "helltide" 1000 Sample.empty = None /\
  createFails (Sample.rejectingCreate 1400000) = Some "db down" /\
  refresh_event Sample.title (Sample.rejectingCreate 1400000) "helltide"
                Sample.helltide Sample.empty
  = (Ok tt, Sample.empty,
     [Create "helltide" Sample.helltide 1000 1600;
      Logged (CreateFailed "helltide" "db down");
      Logged (TooOld "helltide")]) /\
  notify_trigger
    (trace_of (refresh_event Sample.title (Sample.rejectingCreate 1400000)
                             "helltide" Sample.helltide Sample.empty))
  = false /\
  existsb isBroadcast
    (trace_of (refresh_event Sample.title (Sample.rejectingCreate 1400000)
                             "helltide" Sample.helltide Sample.empty))
  = false /\
  flat_map (targetsOf "helltide") (subscribers "helltide" Sample.empty)
  = [("c1", None); ("c2", None)].
Proof. repeat split; reflexivity. Qed.
